(** * Kindra: the code-agent workflow (src/src/prompt.ts, src/src/lib/usage.ts)

    A shallow embedding of [codeAgentFunction], its three sandbox tools, the
    completion check and the credit refund, followed by the properties of the
    specification that concern them.

    Conventions of the embedding.
    - An awaited call of an external collaborator (sandbox, database, model
      endpoint, credit ledger) either returns or throws.  Its outcome is read
      from an environment record, so every theorem quantified over the
      environment covers every behaviour of the collaborators.
    - [step.run(name, f)] is a durable step: the workflow goes on with the
      memoised value of [f], a serialised copy.  What [f] did to the objects
      of the invocation it ran in is seen only through that value.
    - A JavaScript object that is mutated through several references lives in
      a heap and is named by a location. *)

From Stdlib Require Import ZArith.
From stdpp Require Import base option list gmap strings fin_maps.



(** ** JavaScript values the workflow handles *)

(** A thrown value: whether it is an [Error] instance, its [message], and the
    text a template literal or a string concatenation renders it as. *)
Record Exn := mkExn {
  exn_instanceof_Error : bool;
  exn_message : string;
  exn_string : string;
}.

(** [new Error(msg)] *)
Definition new_Error (msg : string) : Exn :=
  {| exn_instanceof_Error := true; exn_message := msg;
     exn_string := "Error: " +:+ msg |}.

(** Truthiness of a string: only the empty string is falsy. *)
Definition truthy (s : string) : bool :=
  match s with
  | EmptyString => false
  | String _ _ => true
  end.

(** [hay.includes(needle)] *)
Fixpoint includes (hay needle : string) : bool :=
  String.prefix needle hay ||
  match hay with
  | EmptyString => false
  | String _ rest => includes rest needle
  end.

Definition LF : string := String (Ascii.ascii_of_nat 10) EmptyString.
Definition DQUOTE : string := String (Ascii.ascii_of_nat 34) EmptyString.

(** ** AgentState and the heap of file maps *)

Definition loc := nat.

(** The objects of type [{ [path: string]: string }] allocated by a Run. *)
Abbreviation Heap := (gmap loc (gmap string string)).

(** [interface AgentState { summary: string; files: {...} }].  [files] holds a
    reference; [None] is the falsy value the source guards against with
    [files || {}]. *)
Record AgentState := mkAgentState {
  summary : string;
  files : option loc;
}.

(** The object a reference points to. *)
Definition deref (h : Heap) (l : loc) : gmap string string :=
  default ∅ (h !! l).

(** [state.data.files || {}] read as a value (no allocation is observable
    when the map is only read). *)
Definition files_of (h : Heap) (st : AgentState) : gmap string string :=
  match files st with
  | Some l => deref h l
  | None => ∅
  end.

(** [Object.keys(o)] *)
Definition Object_keys (o : gmap string string) : list string :=
  (map_to_list o).*1.

(** A fresh object literal [{}]. *)
Definition alloc_object (h : Heap) : loc * Heap :=
  let l := fresh (dom h) in (l, <[l := ∅]> h).

(** [o[key] = value] for a string [value] on an object created by [{}]: the
    key becomes an own property, except [__proto__], which reaches the setter
    inherited from [Object.prototype]; that setter ignores a string. *)
Definition assign (o : gmap string string) (key value : string) : gmap string string :=
  if decide (key = "__proto__") then o else <[key := value]> o.

(** [o[path] = content] on the object at [l]. *)
Definition set_property (h : Heap) (l : loc) (path content : string) : Heap :=
  <[l := assign (deref h l) path content]> h.

(** What a tool callback or handler yields. *)
Inductive JsValue :=
  | VUndefined
  | VString (s : string)
  | VObject (l : loc).

(** ** Tool: terminal (prompt.ts 587-613) *)

Inductive StreamEvent :=
  | OnStdout (data : string)
  | OnStderr (data : string).

Record Buffers := mkBuffers {
  buf_stdout : string;
  buf_stderr : string;
}.

Record CommandResult := mkCommandResult {
  result_stdout : string;
  result_stderr : string;
  result_exitCode : Z;
}.

(** One [sandbox.commands.run]: the chunks handed to the two callbacks, in
    order, and then either the result or a thrown value. *)
Record CommandRun := mkCommandRun {
  cmd_events : list StreamEvent;
  cmd_end : Exn + CommandResult;
}.

Record TerminalEnv := mkTerminalEnv {
  term_getSandbox : option Exn;
  term_run : string -> CommandRun;
}.

Definition on_event (b : Buffers) (ev : StreamEvent) : Buffers :=
  match ev with
  | OnStdout data => {| buf_stdout := buf_stdout b +:+ data; buf_stderr := buf_stderr b |}
  | OnStderr data => {| buf_stdout := buf_stdout b; buf_stderr := buf_stderr b +:+ data |}
  end.

(** The template literal of the catch branch. *)
Definition command_failed (e : Exn) (b : Buffers) : string :=
  "Command failed: " +:+ exn_string e +:+ " " +:+ LF +:+
  "stdout: " +:+ buf_stdout b +:+ LF +:+
  "stderr: " +:+ buf_stderr b.

Definition terminal_handler (env : TerminalEnv) (command : string) : JsValue :=
  let buffers := {| buf_stdout := ""; buf_stderr := "" |} in
  match term_getSandbox env with
  | Some e => VString (command_failed e buffers)
  | None =>
      let r := term_run env command in
      let buffers := foldl on_event buffers (cmd_events r) in
      match cmd_end r with
      | inr result => VString (result_stdout result)
      | inl e => VString (command_failed e buffers)
      end
  end.

(** ** Tool: createOrUpdateFiles (prompt.ts 614-644) *)

Record FileArg := mkFileArg {
  path : string;
  content : string;
}.

(** [w_write i] is the outcome of the [i]-th [sandbox.files.write] of the
    batch: [None] when it returns, [Some e] when it throws [e]. *)
Record WriteEnv := mkWriteEnv {
  w_getSandbox : option Exn;
  w_write : nat -> option Exn;
}.

(** The [for (const file of files)] loop.  [l] is [updatedFiles]. *)
Fixpoint write_loop (env : WriteEnv) (i : nat) (fs : list FileArg)
    (l : loc) (h : Heap) : Heap * option Exn :=
  match fs with
  | [] => (h, None)
  | f :: fs' =>
      match w_write env i with
      | Some e => (h, Some e)
      | None => write_loop env (S i) fs' l (set_property h l (path f) (content f))
      end
  end.

(** The callback given to [step.run("createOrUpdateFiles", ...)], in the
    invocation that runs it.  [updatedFiles] is the very object
    [network.state.data.files] refers to there (a new one only when that
    field is falsy); the result pairs the heap of that invocation with the
    value returned. *)
Definition createOrUpdateFiles_callback (env : WriteEnv) (fs : list FileArg)
    (h : Heap) (st : AgentState) : Heap * JsValue :=
  let '(updatedFiles, h0) :=
    match files st with
    | Some l => (l, h)
    | None => alloc_object h
    end in
  match w_getSandbox env with
  | Some e => (h0, VString ("Error:" +:+ exn_string e))
  | None =>
      match write_loop env 0 fs updatedFiles h0 with
      | (h1, None) => (h1, VObject updatedFiles)
      | (h1, Some e) => (h1, VString ("Error:" +:+ exn_string e))
      end
  end.

(** [await step.run(name, callback)] as the workflow sees it.  [h] is the
    heap the workflow goes on with, [ran] what the callback gave in the
    invocation that ran it.  A string comes back as it is.  An object comes
    back as a copy of its content; the copy stands at the object's location,
    and the handler below makes [files] refer to it.  Nothing else of the
    callback's heap is kept. *)
Definition step_run (h : Heap) (ran : Heap * JsValue) : Heap * JsValue :=
  match ran with
  | (hc, VObject l) => (<[l := deref hc l]> h, VObject l)
  | (_, v) => (h, v)
  end.

(** The step [createOrUpdateFiles] of the handler. *)
Definition createOrUpdateFiles_step (env : WriteEnv) (fs : list FileArg)
    (h : Heap) (st : AgentState) : Heap * JsValue :=
  step_run h (createOrUpdateFiles_callback env fs h st).

(** The handler: it assigns the step's value to [files] when
    [typeof newFiles === "object"], and has no [return] statement. *)
Definition createOrUpdateFiles_handler (env : WriteEnv) (fs : list FileArg)
    (h : Heap) (st : AgentState) : Heap * AgentState * JsValue :=
  let '(h1, newFiles) := createOrUpdateFiles_step env fs h st in
  match newFiles with
  | VObject l => (h1, {| summary := summary st; files := Some l |}, VUndefined)
  | _ => (h1, st, VUndefined)
  end.

(** ** Tool: readFiles (prompt.ts 645-667) *)

Record ReadEnv := mkReadEnv {
  r_getSandbox : option Exn;
  r_read : nat -> string -> Exn + string;
}.

Fixpoint read_loop (env : ReadEnv) (i : nat) (fs : list string)
    (contents : list FileArg) : Exn + list FileArg :=
  match fs with
  | [] => inr contents
  | file :: fs' =>
      match r_read env i file with
      | inl e => inl e
      | inr c => read_loop env (S i) fs' (contents ++ [{| path := file; content := c |}])
      end
  end.

Definition hex_digit (n : nat) : string :=
  match n with
  | 0 => "0" | 1 => "1" | 2 => "2" | 3 => "3" | 4 => "4" | 5 => "5"
  | 6 => "6" | 7 => "7" | 8 => "8" | 9 => "9" | 10 => "a" | 11 => "b"
  | 12 => "c" | 13 => "d" | 14 => "e" | _ => "f"
  end.

(** JSON.stringify of one character of a string (bytes above 127 belong to
    multi-byte characters and are copied). *)
Definition json_char (c : Ascii.ascii) : string :=
  let n := Ascii.nat_of_ascii c in
  if decide (n = 34) then "\" +:+ DQUOTE
  else if decide (n = 92) then "\\"
  else if decide (n = 8) then "\b"
  else if decide (n = 9) then "\t"
  else if decide (n = 10) then "\n"
  else if decide (n = 12) then "\f"
  else if decide (n = 13) then "\r"
  else if decide (n < 32) then "\u00" +:+ hex_digit (n / 16) +:+ hex_digit (n mod 16)
  else String c EmptyString.

Fixpoint json_chars (s : string) : string :=
  match s with
  | EmptyString => EmptyString
  | String c rest => json_char c +:+ json_chars rest
  end.

Definition json_string (s : string) : string :=
  DQUOTE +:+ json_chars s +:+ DQUOTE.

Definition json_entry (f : FileArg) : string :=
  "{" +:+ json_string "path" +:+ ":" +:+ json_string (path f) +:+ "," +:+
  json_string "content" +:+ ":" +:+ json_string (content f) +:+ "}".

Fixpoint json_join (l : list string) : string :=
  match l with
  | [] => EmptyString
  | [x] => x
  | x :: rest => x +:+ "," +:+ json_join rest
  end.

(** [JSON.stringify(contents)] for an array of [{ path, content }]. *)
Definition JSON_stringify (contents : list FileArg) : string :=
  "[" +:+ json_join (json_entry <$> contents) +:+ "]".

Definition readFiles_handler (env : ReadEnv) (fs : list string) : JsValue :=
  match r_getSandbox env with
  | Some e => VString ("Error:" +:+ exn_string e)
  | None =>
      match read_loop env 0 fs [] with
      | inr contents => VString (JSON_stringify contents)
      | inl e => VString ("Error:" +:+ exn_string e)
      end
  end.

(** ** The coding agent: response hook, router, rounds (prompt.ts 669-697) *)

Definition TASK_SUMMARY : string := "<task_summary>".

(** [lifecycle.onResponse].  [text] is what [lastAssistantTextMessageContent]
    gives for the response ([None] for [undefined]). *)
Definition onResponse (text : option string) (st : AgentState) : AgentState :=
  match text with
  | Some lastAssistantMessageText =>
      if truthy lastAssistantMessageText then
        if includes lastAssistantMessageText TASK_SUMMARY then
          {| summary := lastAssistantMessageText; files := files st |}
        else st
      else st
  | None => st
  end.

Inductive AgentName := codeAgent.

(** [router]: [None] is the bare [return]. *)
Definition router (st : AgentState) : option AgentName :=
  if truthy (summary st) then None else Some codeAgent.

Definition maxIter : nat := 15.

(** A tool call of the model together with what the sandbox does for it. *)
Inductive ToolCall :=
  | CallTerminal (command : string) (env : TerminalEnv)
  | CallCreateOrUpdateFiles (fs : list FileArg) (env : WriteEnv)
  | CallReadFiles (fs : list string) (env : ReadEnv).

Definition invoke_tool (c : ToolCall) (h : Heap) (st : AgentState)
    : Heap * AgentState * JsValue :=
  match c with
  | CallTerminal command env => (h, st, terminal_handler env command)
  | CallCreateOrUpdateFiles fs env => createOrUpdateFiles_handler env fs h st
  | CallReadFiles fs env => (h, st, readFiles_handler env fs)
  end.

Fixpoint invoke_tools (cs : list ToolCall) (h : Heap) (st : AgentState)
    : Heap * AgentState :=
  match cs with
  | [] => (h, st)
  | c :: cs' =>
      let '(h1, st1, _) := invoke_tool c h st in
      invoke_tools cs' h1 st1
  end.

(** One round of the model: the inference throws, or it answers with a text
    (seen by [onResponse]) and tool calls (run one at a time). *)
Inductive Round :=
  | RoundThrows (e : Exn)
  | RoundResponse (text : option string) (calls : list ToolCall).

(** What a run of the network leaves: the number of rounds the coding agent
    started, the heap and state, and the thrown value if a round threw. *)
Record NetworkResult := mkNetworkResult {
  net_rounds : nat;
  net_heap : Heap;
  net_state : AgentState;
  net_thrown : option Exn;
}.

(** Modelled from the spec: the round driver behind [createNetwork] and
    [network.run] belongs to the agent framework and is not part of the
    sources.  Section 4.3 item 3: before each round the router inspects the
    state; when it names no agent the loop halts, otherwise the coding agent
    runs another round; a hard cap of [maxIter] rounds bounds the loop.
    Section 4.2: after each response the hook scans the text, and the tool
    calls of the response are executed.  [model k] is the behaviour of the
    model in round [k]; [fuel] is what is left of the cap. *)
Fixpoint network_loop (fuel : nat) (model : nat -> Round) (counter : nat)
    (h : Heap) (st : AgentState) : NetworkResult :=
  match fuel with
  | 0 => mkNetworkResult counter h st None
  | S fuel' =>
      match router st with
      | None => mkNetworkResult counter h st None
      | Some codeAgent =>
          match model counter with
          | RoundThrows e => mkNetworkResult (S counter) h st (Some e)
          | RoundResponse text calls =>
              let st1 := onResponse text st in
              let '(h2, st2) := invoke_tools calls h st1 in
              network_loop fuel' model (S counter) h2 st2
          end
      end
  end.

(** [createState({ summary: "", files: {} })] on an empty heap. *)
Definition initial_heap : Heap := {[ 0 := ∅ ]}.
Definition initial_state : AgentState := {| summary := ""; files := Some 0 |}.

(** [network.run(event.data.value, { state })] *)
Definition network_run (model : nat -> Round) : NetworkResult :=
  network_loop maxIter model 0 initial_heap initial_state.

(** [isError] of the completion check (prompt.ts 699-701). *)
Definition isError (h : Heap) (st : AgentState) : bool :=
  negb (truthy (summary st)) ||
  (length (Object_keys (files_of h st)) =? 0)%nat.

(** ** The persistent world: messages and the credit ledger *)

Inductive MessageRole := USER | ASSISTANT.
Inductive MessageType := RESULT | ERROR.

Record Fragment := mkFragment {
  sandboxUrl : string;
  title : string;
  fragment_files : gmap string string;
}.

Record Message := mkMessage {
  projectId : string;
  msg_content : string;
  role : MessageRole;
  type : MessageType;
  createdAt : Z;
  fragment : option Fragment;
}.

#[global] Instance MessageType_eq_dec : EqDecision MessageType.
Proof. solve_decision. Defined.

(** [messages]: the rows of the message table, oldest insertion first.
    [refund_calls]: the user ids [refundCredit] was called with.
    [rewards]: the [reward(userId, points)] calls the ledger accepted.
    [run_sandboxId]: the variable [sandboxId] of the running workflow. *)
Record World := mkWorld {
  messages : list Message;
  refund_calls : list string;
  rewards : list (string * Z);
  run_sandboxId : option string;
}.

(** Workflow code: it transforms the world and returns or throws. *)
Definition Wf (A : Type) : Type := World -> World * (Exn + A).

Definition ret {A} (a : A) : Wf A := fun w => (w, inr a).
Definition throw {A} (e : Exn) : Wf A := fun w => (w, inl e).
Definition bind {A B} (m : Wf A) (k : A -> Wf B) : Wf B :=
  fun w =>
    match m w with
    | (w1, inr a) => k a w1
    | (w1, inl e) => (w1, inl e)
    end.
(** [try { body } catch (e) { handler }]: effects of [body] stay. *)
Definition try_catch {A} (body : Wf A) (handler : Exn -> Wf A) : Wf A :=
  fun w =>
    match body w with
    | (w1, inr a) => (w1, inr a)
    | (w1, inl e) => handler e w1
    end.
(** An awaited external call with a known outcome. *)
Definition await {A} (outcome : Exn + A) : Wf A := fun w => (w, outcome).
Definition await_void (outcome : option Exn) : Wf unit :=
  fun w => (w, match outcome with Some e => inl e | None => inr tt end).

Notation "x <- m ;; k" := (bind m (fun x => k))
  (at level 100, m at next level, right associativity).
Notation "m ;;; k" := (bind m (fun _ => k))
  (at level 100, right associativity).

(** ** src/lib/usage.ts *)

Module Usage.

Definition GENERATION_COST : Z := 1.

(** [auth()] gives the signed-in user id or [null], or throws;
    [getUsageTracker()] and [usageTracker.reward] return or throw. *)
Record RefundEnv := mkRefundEnv {
  auth : Exn + option string;
  getUsageTracker : option Exn;
  reward : option Exn;
}.

Definition log_refund_call (userIdParam : string) : Wf unit :=
  fun w => ({| messages := messages w;
               refund_calls := refund_calls w ++ [userIdParam];
               rewards := rewards w;
               run_sandboxId := run_sandboxId w |}, inr tt).

Definition do_reward (env : RefundEnv) (userId : string) (points : Z) : Wf unit :=
  fun w =>
    match reward env with
    | Some e => (w, inl e)
    | None => ({| messages := messages w;
                  refund_calls := refund_calls w;
                  rewards := rewards w ++ [(userId, points)];
                  run_sandboxId := run_sandboxId w |}, inr tt)
    end.

(** [refundCredit(userIdParam)] *)
Definition refundCredit (env : RefundEnv) (userIdParam : string) : Wf unit :=
  log_refund_call userIdParam ;;;
  authUserId <- await (auth env) ;;
  let userId := if truthy userIdParam then Some userIdParam else authUserId in
  match userId with
  | Some userId =>
      if truthy userId then
        try_catch
          (await_void (getUsageTracker env) ;;;
           do_reward env userId GENERATION_COST)
          (fun error => throw error)
      else throw (new_Error "User not authenticated")
  | None => throw (new_Error "User not authenticated")
  end.

End Usage.

(** ** The workflow [codeAgentFunction] (prompt.ts 523-877) *)

(** [event.data] *)
Record Event := mkEvent {
  ev_value : string;
  ev_projectId : string;
  ev_userId : string;
}.

(** An element of an agent's [output]: whether its [type] is ["text"], and
    its [content], a string or an array (each element as [join] renders it). *)
Record OutputMessage := mkOutputMessage {
  out_is_text : bool;
  out_content : string + list string;
}.

Inductive AgentRole := role_assistant | role_user.

(** The [Message] of the agent framework built in [get-previous-messages]. *)
Record TextMessage := mkTextMessage {
  tm_role : AgentRole;
  tm_content : string;
}.

(** The outcomes of the external calls of one Run, in source order.  A
    [create] that returns gives the [createdAt] the database assigned. *)
Record Env := mkEnv {
  Sandbox_create : Exn + string;
  sandbox_setTimeout : option Exn;
  message_findMany : Exn + list Message;
  model : nat -> Round;
  refund_env : Usage.RefundEnv;
  create_error_result : Exn + Z;
  fragmentTitleGenerator_run : string -> Exn + list OutputMessage;
  responseGenerator_run : string -> Exn + list OutputMessage;
  getSandbox_for_url : option Exn;
  sandbox_getHost : Exn + string;
  create_success_result : Exn + Z;
  refund_env_on_error : Usage.RefundEnv;
  Date_now : Z;
  message_findFirst : option Exn;
  create_error_message : Exn + Z;
  getSandbox_cleanup : option Exn;
}.

(** The value the workflow returns. *)
Inductive WorkflowResult :=
  | SuccessResult (url title : string) (files : gmap string string) (summary : string)
  | ErrorResult (message : string).

Definition set_sandboxId (id : string) : Wf unit :=
  fun w => ({| messages := messages w; refund_calls := refund_calls w;
               rewards := rewards w; run_sandboxId := Some id |}, inr tt).

Definition get_sandboxId : Wf (option string) :=
  fun w => (w, inr (run_sandboxId w)).

(** [prisma.message.create({ data })] *)
Definition message_create (outcome : Exn + Z) (data : Z -> Message) : Wf unit :=
  fun w =>
    match outcome with
    | inl e => (w, inl e)
    | inr now => ({| messages := messages w ++ [data now];
                     refund_calls := refund_calls w;
                     rewards := rewards w;
                     run_sandboxId := run_sandboxId w |}, inr tt)
    end.

(** step get-sandbox-id *)
Definition get_sandbox_id (env : Env) : Wf string :=
  sandboxId <- await (Sandbox_create env) ;;
  await_void (sandbox_setTimeout env) ;;;
  ret sandboxId.

(** step get-previous-messages *)
Definition get_previous_messages (env : Env) : Wf (list TextMessage) :=
  rows <- await (message_findMany env) ;;
  ret (reverse
         ((fun m => {| tm_role := match role m with
                                  | ASSISTANT => role_assistant
                                  | USER => role_user
                                  end;
                       tm_content := msg_content m |}) <$> rows)).

(** [generateFragmentTitle] and [generateResponse] *)
Definition generate_text (fallback : string) (output : list OutputMessage) : string :=
  match output with
  | first :: _ =>
      if out_is_text first then
        match out_content first with
        | inr parts => foldr String.append "" parts
        | inl text => text
        end
      else fallback
  | [] => fallback
  end.

Definition generateFragmentTitle := generate_text "Fragment".
Definition generateResponse := generate_text "Here you go!".

(** The swallowed sandbox lookup that ends both failure paths. *)
Definition cleanup_sandbox (env : Env) : Wf unit :=
  sandboxId <- get_sandboxId ;;
  match sandboxId with
  | Some id =>
      if truthy id then
        try_catch (await_void (getSandbox_cleanup env)) (fun _ => ret tt)
      else ret tt
  | None => ret tt
  end.

Definition error_result_message (ev : Event) (now : Z) : Message :=
  {| projectId := ev_projectId ev;
     msg_content := "Sorry, I failed to generate a response. Please try again with a more specific prompt or simpler request.";
     role := ASSISTANT; type := ERROR; createdAt := now; fragment := None |}.

Definition unexpected_error_message (ev : Event) (now : Z) : Message :=
  {| projectId := ev_projectId ev;
     msg_content := "Sorry, an unexpected error occurred. Please try again.";
     role := ASSISTANT; type := ERROR; createdAt := now; fragment := None |}.

(** The callback of the steps refund-credit and refund-credit-on-error:
    [try { await refundCredit(event.data.userId) } catch (error) { log }]. *)
Definition refund_credit_step (renv : Usage.RefundEnv) (ev : Event) : Wf unit :=
  try_catch (Usage.refundCredit renv (ev_userId ev)) (fun _ => ret tt).

(** The branch [if (isError) { ... }]. *)
Definition completion_failed (ev : Event) (env : Env) : Wf WorkflowResult :=
  (* step refund-credit *)
  refund_credit_step (refund_env env) ev ;;;
  (* step save-error-result *)
  message_create (create_error_result env) (error_result_message ev) ;;;
  cleanup_sandbox env ;;;
  ret (ErrorResult "Failed to generate code").

(** The rest of the [try] block once the completion check has passed. *)
Definition completion_succeeded (ev : Event) (env : Env)
    (h : Heap) (st : AgentState) : Wf WorkflowResult :=
  fragmentTitleOutput <- await (fragmentTitleGenerator_run env (summary st)) ;;
  responseOutput <- await (responseGenerator_run env (summary st)) ;;
  (* step get-sandbox-url *)
  sandboxUrl <- (await_void (getSandbox_for_url env) ;;;
                 host <- await (sandbox_getHost env) ;;
                 ret ("https://" +:+ host)) ;;
  (* step save-success-result *)
  message_create (create_success_result env)
    (fun now =>
       {| projectId := ev_projectId ev;
          msg_content := generateResponse responseOutput;
          role := ASSISTANT; type := RESULT; createdAt := now;
          fragment := Some {| sandboxUrl := sandboxUrl;
                              title := generateFragmentTitle fragmentTitleOutput;
                              fragment_files := files_of h st |} |}) ;;;
  ret (SuccessResult sandboxUrl (generateFragmentTitle fragmentTitleOutput)
         (files_of h st) (summary st)).

(** The [try] block. *)
Definition try_block (ev : Event) (env : Env) : Wf WorkflowResult :=
  sandboxId <- get_sandbox_id env ;;
  set_sandboxId sandboxId ;;;
  previousMessages <- get_previous_messages env ;;
  let result := network_run (model env) in
  match net_thrown result with
  | Some e => throw e
  | None =>
      if isError (net_heap result) (net_state result)
      then completion_failed ev env
      else completion_succeeded ev env (net_heap result) (net_state result)
  end.

(** The [where] clause of [findFirst] in step save-error-message. *)
Definition recent_error (pid : string) (now : Z) (m : Message) : bool :=
  bool_decide (projectId m = pid) && bool_decide (type m = ERROR) &&
  (now - 60000 <=? createdAt m)%Z.

Definition message_findFirst_recent (ev : Event) (env : Env) : Wf (option Message) :=
  fun w =>
    match message_findFirst env with
    | Some e => (w, inl e)
    | None => (w, inr (List.find (recent_error (ev_projectId ev) (Date_now env)) (messages w)))
    end.

(** The [catch (error)] block. *)
Definition catch_block (ev : Event) (env : Env) (error : Exn) : Wf WorkflowResult :=
  (* step refund-credit-on-error *)
  refund_credit_step (refund_env_on_error env) ev ;;;
  (* step save-error-message *)
  (existingErrorMessage <- message_findFirst_recent ev env ;;
   match existingErrorMessage with
   | None => message_create (create_error_message env) (unexpected_error_message ev)
   | Some _ => ret tt
   end) ;;;
  cleanup_sandbox env ;;;
  ret (ErrorResult (if exn_instanceof_Error error then exn_message error
                    else "Unknown error")).

(** The world a Run starts in: the tables as they are, [sandboxId = null]. *)
Definition start_run (w : World) : World :=
  {| messages := messages w; refund_calls := refund_calls w;
     rewards := rewards w; run_sandboxId := None |}.

Definition codeAgentFunction (ev : Event) (env : Env) (w : World)
    : World * (Exn + WorkflowResult) :=
  try_catch (try_block ev env) (catch_block ev env) (start_run w).

(** * The quota functions of src/lib/usage.ts *)

Module Quota.

Definition FREE_POINTS : Z := 5.
Definition PRO_POINTS : Z := 75.
Definition DURATION : Z := 30 * 24 * 60 * 60.
Definition GENERATION_COST : Z := 1.

(** What [auth()] resolves to: the signed-in user id ([None] for [null]) and
    the answer of [has({ plan: "pro" })]. *)
Record Session := mkSession {
  session_userId : option string;
  session_pro : bool;
}.

(** The options [new RateLimiterPrisma] is given. *)
Record Tracker := mkTracker {
  tableName : string;
  points : Z;
  duration : Z;
}.

(** The [RateLimiterRes] fields the code reads. *)
Record RateLimiterRes := mkRateLimiterRes {
  remainingPoints : Z;
  msBeforeNext : Z;
  consumedPoints : Z;
  isFirstInDuration : bool;
}.

(** One request in which every [auth()] call has the same outcome and the
    limiter can always be built: what [auth()] does, and what the limiter
    answers to [consume(key, points)] and [get(key)] on a given tracker.
    [QuotaCalls] below gives each call of [getUsageStatus] its own outcome. *)
Record Request := mkRequest {
  auth : Exn + Session;
  limiter_consume : Tracker -> string -> Z -> Exn + RateLimiterRes;
  limiter_get : Tracker -> string -> Exn + option RateLimiterRes;
}.

(** [!userId] is false: the id is a non-empty string. *)
Definition signed_in (userId : option string) : option string :=
  match userId with
  | Some u => if truthy u then Some u else None
  | None => None
  end.

Definition not_authenticated : Exn := new_Error "User not authenticated".

(** [getUsageTracker()] (usage.ts 10-22) *)
Definition getUsageTracker (rq : Request) : Exn + Tracker :=
  match auth rq with
  | inl e => inl e
  | inr session =>
      let hasProAccess := session_pro session in
      inr {| tableName := "Usage";
             points := if hasProAccess then PRO_POINTS else FREE_POINTS;
             duration := DURATION |}
  end.

(** [consumeCredits()] (usage.ts 24-35) *)
Definition consumeCredits (rq : Request) : Exn + RateLimiterRes :=
  match auth rq with
  | inl e => inl e
  | inr session =>
      match signed_in (session_userId session) with
      | None => inl not_authenticated
      | Some userId =>
          match getUsageTracker rq with
          | inl e => inl e
          | inr usageTracker => limiter_consume rq usageTracker userId GENERATION_COST
          end
      end
  end.

Definition full_quota (maxPoints : Z) : RateLimiterRes :=
  {| remainingPoints := maxPoints; msBeforeNext := 0; consumedPoints := 0;
     isFirstInDuration := true |}.

(** [getUsageStatus()] (usage.ts 56-95) *)
Definition getUsageStatus (rq : Request) : Exn + RateLimiterRes :=
  match auth rq with
  | inl e => inl e
  | inr session =>
      match signed_in (session_userId session) with
      | None => inl not_authenticated
      | Some userId =>
          let hasProAccess := session_pro session in
          let maxPoints := if hasProAccess then PRO_POINTS else FREE_POINTS in
          match getUsageTracker rq with
          | inl e => inl e
          | inr usageTracker =>
              match limiter_get rq usageTracker userId with
              | inr None => inr (full_quota maxPoints)
              | inr (Some result) =>
                  inr {| remainingPoints := remainingPoints result;
                         msBeforeNext := msBeforeNext result;
                         consumedPoints := consumedPoints result;
                         isFirstInDuration := isFirstInDuration result |}
              | inl _ => inr (full_quota maxPoints)
              end
          end
      end
  end.

End Quota.

(** * The usage file of src/unnamed/part_000 *)

Module QuotaPart000.

Definition FREE_POINTS : Z := 5.
Definition PRO_POINTS : Z := 75.
Definition DURATION : Z := 30 * 24 * 60 * 60.
Definition GENERATION_COST : Z := 1.

(** [getUsageTracker()] (part_000 10-22) *)
Definition getUsageTracker (rq : Quota.Request) : Exn + Quota.Tracker :=
  match Quota.auth rq with
  | inl e => inl e
  | inr session =>
      let hasProAccess := Quota.session_pro session in
      inr {| Quota.tableName := "Usage";
             Quota.points := if hasProAccess then PRO_POINTS else FREE_POINTS;
             Quota.duration := DURATION |}
  end.

(** [consumeCredits()] (part_000 24-35) *)
Definition consumeCredits (rq : Quota.Request) : Exn + Quota.RateLimiterRes :=
  match Quota.auth rq with
  | inl e => inl e
  | inr session =>
      match Quota.signed_in (Quota.session_userId session) with
      | None => inl Quota.not_authenticated
      | Some userId =>
          match getUsageTracker rq with
          | inl e => inl e
          | inr usageTracker => Quota.limiter_consume rq usageTracker userId GENERATION_COST
          end
      end
  end.

(** [getUsageStatus()] (part_000 37-76): the defaults are [FREE_POINTS]
    whatever the plan. *)
Definition getUsageStatus (rq : Quota.Request) : Exn + Quota.RateLimiterRes :=
  match Quota.auth rq with
  | inl e => inl e
  | inr session =>
      match Quota.signed_in (Quota.session_userId session) with
      | None => inl Quota.not_authenticated
      | Some userId =>
          match getUsageTracker rq with
          | inl e => inl e
          | inr usageTracker =>
              match Quota.limiter_get rq usageTracker userId with
              | inr None => inr (Quota.full_quota FREE_POINTS)
              | inr (Some result) =>
                  inr {| Quota.remainingPoints := Quota.remainingPoints result;
                         Quota.msBeforeNext := Quota.msBeforeNext result;
                         Quota.consumedPoints := Quota.consumedPoints result;
                         Quota.isFirstInDuration := Quota.isFirstInDuration result |}
              | inl _ => inr (Quota.full_quota FREE_POINTS)
              end
          end
      end
  end.

End QuotaPart000.

(** * [getUsageStatus] of src/lib/usage.ts, call by call *)

Module QuotaCalls.

(** One run of [getUsageStatus()], each awaited call with its own outcome:
    [auth_status] is the [auth()] of usage.ts 57; [auth_tracker] the
    [auth()] inside the [getUsageTracker()] called at usage.ts 66;
    [new_limiter] the constructor [new RateLimiterPrisma] there ([None] when
    it returns); [get] is [usageTracker.get]. *)
Record Call := mkCall {
  auth_status : Exn + Quota.Session;
  auth_tracker : Exn + Quota.Session;
  new_limiter : option Exn;
  get : Quota.Tracker -> string -> Exn + option Quota.RateLimiterRes;
}.

(** [getUsageTracker()] (usage.ts 10-22) as called from [getUsageStatus]. *)
Definition getUsageTracker (c : Call) : Exn + Quota.Tracker :=
  match auth_tracker c with
  | inl e => inl e
  | inr session =>
      let hasProAccess := Quota.session_pro session in
      match new_limiter c with
      | Some e => inl e
      | None =>
          inr {| Quota.tableName := "Usage";
                 Quota.points := if hasProAccess then Quota.PRO_POINTS
                                 else Quota.FREE_POINTS;
                 Quota.duration := Quota.DURATION |}
      end
  end.

(** [getUsageStatus()] (usage.ts 56-95): the tracker is built outside the
    [try], the lookup inside it. *)
Definition getUsageStatus (c : Call) : Exn + Quota.RateLimiterRes :=
  match auth_status c with
  | inl e => inl e
  | inr session =>
      match Quota.signed_in (Quota.session_userId session) with
      | None => inl Quota.not_authenticated
      | Some userId =>
          let hasProAccess := Quota.session_pro session in
          let maxPoints := if hasProAccess then Quota.PRO_POINTS else Quota.FREE_POINTS in
          match getUsageTracker c with
          | inl e => inl e
          | inr usageTracker =>
              match get c usageTracker userId with
              | inr None => inr (Quota.full_quota maxPoints)
              | inr (Some result) =>
                  inr {| Quota.remainingPoints := Quota.remainingPoints result;
                         Quota.msBeforeNext := Quota.msBeforeNext result;
                         Quota.consumedPoints := Quota.consumedPoints result;
                         Quota.isFirstInDuration := Quota.isFirstInDuration result |}
              | inl _ => inr (Quota.full_quota maxPoints)
              end
          end
      end
  end.

(** The run of [getUsageStatus] a [Quota.Request] stands for. *)
Definition of_request (rq : Quota.Request) : Call :=
  {| auth_status := Quota.auth rq;
     auth_tracker := Quota.auth rq;
     new_limiter := None;
     get := Quota.limiter_get rq |}.

End QuotaCalls.

(** * Quantities the properties speak about *)

(** What the two callbacks have captured, stated on the event list. *)
Definition captured_stdout (evs : list StreamEvent) : string :=
  foldr String.append ""
    (omap (fun ev => match ev with OnStdout d => Some d | OnStderr _ => None end) evs).

Definition captured_stderr (evs : list StreamEvent) : string :=
  foldr String.append ""
    (omap (fun ev => match ev with OnStderr d => Some d | OnStdout _ => None end) evs).

(** The batch merged into a map, as far as the writes succeed. *)
Fixpoint merged (env : WriteEnv) (i : nat) (fs : list FileArg)
    (m : gmap string string) : gmap string string :=
  match fs with
  | [] => m
  | f :: fs' =>
      match w_write env i with
      | Some _ => m
      | None => merged env (S i) fs' (assign m (path f) (content f))
      end
  end.

Definition no_buffers : Buffers := {| buf_stdout := ""; buf_stderr := "" |}.

(** The ERROR rows of a project. *)
Definition error_messages (pid : string) (ms : list Message) : list Message :=
  List.filter (fun m => bool_decide (projectId m = pid) && bool_decide (type m = ERROR)) ms.


(** A summary is either unset or carries the terminal marker. *)
Definition unset_or_marked (s : string) : Prop :=
  s = "" \/ includes s TASK_SUMMARY = true.

(** A round that neither throws nor answers with the terminal marker. *)
Definition unmarked (r : Round) : Prop :=
  match r with
  | RoundThrows _ => False
  | RoundResponse (Some t) _ => includes t TASK_SUMMARY = false
  | RoundResponse None _ => True
  end.


(** The entries a [readFiles] call reports when every read returns: the
    requested paths in order, each with what its read gave. *)
Fixpoint read_entries (env : ReadEnv) (i : nat) (fs : list string) : list FileArg :=
  match fs with
  | [] => []
  | file :: fs' =>
      {| path := file;
         content := match r_read env i file with inr c => c | inl _ => "" end |}
      :: read_entries env (S i) fs'
  end.

(** The same Run with other outcomes of the two refund steps. *)
Definition with_refund_envs (env : Env) (r1 r2 : Usage.RefundEnv) : Env :=
  {| Sandbox_create := Sandbox_create env;
     sandbox_setTimeout := sandbox_setTimeout env;
     message_findMany := message_findMany env;
     model := model env;
     refund_env := r1;
     create_error_result := create_error_result env;
     fragmentTitleGenerator_run := fragmentTitleGenerator_run env;
     responseGenerator_run := responseGenerator_run env;
     getSandbox_for_url := getSandbox_for_url env;
     sandbox_getHost := sandbox_getHost env;
     create_success_result := create_success_result env;
     refund_env_on_error := r2;
     Date_now := Date_now env;
     message_findFirst := message_findFirst env;
     create_error_message := create_error_message env;
     getSandbox_cleanup := getSandbox_cleanup env |}.

(** Two worlds that differ at most in what the ledger was credited. *)
Definition same_but_rewards (w w' : World) : Prop :=
  messages w = messages w' /\
  refund_calls w = refund_calls w' /\
  run_sandboxId w = run_sandboxId w'.

(** Two workflow computations that return or throw the same value and keep
    worlds related by [same_but_rewards] related. *)
Definition agree {A} (m m' : Wf A) : Prop :=
  forall w w', same_but_rewards w w' ->
    same_but_rewards (m w).1 (m' w').1 /\ (m w).2 = (m' w').2.

(** What a message row written for the event [ev] looks like. *)
Definition row_of_run (ev : Event) (m : Message) : Prop :=
  projectId m = ev_projectId ev /\
  role m = ASSISTANT /\
  match type m with
  | ERROR =>
      fragment m = None /\
      (msg_content m = msg_content (error_result_message ev 0) \/
       msg_content m = msg_content (unexpected_error_message ev 0))
  | RESULT => is_Some (fragment m)
  end.

(** * Concrete tool calls and Runs *)

(** A command that prints on both streams and returns. *)
Definition ls_env : TerminalEnv :=
  {| term_getSandbox := None;
     term_run := fun _ =>
       {| cmd_events := [OnStdout "app"; OnStderr "warn: cache"; OnStdout LF];
          cmd_end := inr {| result_stdout := "app" +:+ LF;
                            result_stderr := "warn: cache";
                            result_exitCode := 0 |} |} |}.

Definition disk_full : Exn := new_Error "disk full".

(** The second write of the batch throws. *)
Definition second_write_fails : WriteEnv :=
  {| w_getSandbox := None;
     w_write := fun i => if decide (i = 1) then Some disk_full else None |}.

Definition two_files : list FileArg :=
  [ {| path := "a.ts"; content := "x" |}; {| path := "b.ts"; content := "y" |} ].

Definition ledger_ok : Usage.RefundEnv :=
  {| Usage.auth := inr None; Usage.getUsageTracker := None; Usage.reward := None |}.

Definition text_output (s : string) : list OutputMessage :=
  [ {| out_is_text := true; out_content := inl s |} ].

(** A Run described by what varies between the scenarios below: the outcome
    of provisioning, the model, the outcomes of the three [create] calls, the
    clock of the outer handler and the outcome of its [findFirst]. *)
Definition sample_env (provision : Exn + string) (m : nat -> Round)
    (save_error save_success : Exn + Z) (now : Z) (find_first : option Exn)
    (save_unexpected : Exn + Z) : Env :=
  {| Sandbox_create := provision;
     sandbox_setTimeout := None;
     message_findMany := inr [];
     model := m;
     refund_env := ledger_ok;
     create_error_result := save_error;
     fragmentTitleGenerator_run := fun _ => inr (text_output "Counter");
     responseGenerator_run := fun _ => inr (text_output "Built it.");
     getSandbox_for_url := None;
     sandbox_getHost := inr "3000-sbx.example.dev";
     create_success_result := save_success;
     refund_env_on_error := ledger_ok;
     Date_now := now;
     message_findFirst := find_first;
     create_error_message := save_unexpected;
     getSandbox_cleanup := None |}.

Definition writes_ok : WriteEnv := {| w_getSandbox := None; w_write := fun _ => None |}.

Definition page : FileArg := {| path := "app/page.tsx"; content := "export default Page" |}.

(** The model writes one file, runs a command, and signals completion in its
    third round. *)
Definition model_converges (k : nat) : Round :=
  match k with
  | 0 => RoundResponse None [CallCreateOrUpdateFiles [page] writes_ok]
  | 1 => RoundResponse (Some "Checking the build") [CallTerminal "ls" ls_env]
  | _ => RoundResponse (Some "<task_summary>Built a counter</task_summary>") []
  end.

(** The model writes a file in every round and never signals completion. *)
Definition model_never_done (k : nat) : Round :=
  RoundResponse (Some "Still working") [CallCreateOrUpdateFiles [page] writes_ok].

Definition db_down : Exn := new_Error "connection refused".
Definition quota : Exn := new_Error "sandbox quota exceeded".

Definition ev1 : Event :=
  {| ev_value := "build a counter"; ev_projectId := "p1"; ev_userId := "u1" |}.

Definition empty_world : World :=
  {| messages := []; refund_calls := []; rewards := []; run_sandboxId := None |}.

Definition run_converges : Env :=
  sample_env (inr "sbx") model_converges (inr 1000%Z) (inr 1000%Z) 1000 None (inr 1000%Z).

(** Non-convergence reported at time [t]. *)
Definition run_never_done (t : Z) : Env :=
  sample_env (inr "sbx") model_never_done (inr t) (inr t) t None (inr t).

(** Provisioning throws; the outer handler runs at time [t]. *)
Definition run_no_sandbox (t : Z) : Env :=
  sample_env (inl quota) model_converges (inr t) (inr t) t None (inr t).

(** Non-convergence, and the [create] of step save-error-result throws. *)
Definition run_never_done_db_down : Env :=
  sample_env (inr "sbx") model_never_done (inl db_down) (inr 1000%Z) 1000 None (inr 1000%Z).

(** Provisioning throws, and the [findFirst] of the outer handler throws. *)
Definition run_no_sandbox_db_down : Env :=
  sample_env (inl quota) model_converges (inr 1000%Z) (inr 1000%Z) 1000 (Some db_down) (inr 1000%Z).

(** A project whose last Run reported an error at time 1000. *)
Definition world_after_error : World :=
  {| messages := [error_result_message ev1 1000]; refund_calls := ["u1"];
     rewards := [("u1", 1%Z)]; run_sandboxId := None |}.

(** Every read returns. *)
Definition reads_ok : ReadEnv :=
  {| r_getSandbox := None; r_read := fun _ p => inr ("// " +:+ p) |}.

(** A signed-in pro user without a usage record. *)
Definition pro_request : Quota.Request :=
  {| Quota.auth := inr {| Quota.session_userId := Some "u1"; Quota.session_pro := true |};
     Quota.limiter_consume := fun _ _ _ => inl db_down;
     Quota.limiter_get := fun _ _ => inr None |}.

(** A signed-in user on the free plan whose usage lookup throws. *)
Definition free_request : Quota.Request :=
  {| Quota.auth := inr {| Quota.session_userId := Some "u2"; Quota.session_pro := false |};
     Quota.limiter_consume := fun _ _ _ => inl db_down;
     Quota.limiter_get := fun _ _ => inl db_down |}.

(** A signed-in free user; the [auth()] of the tracker throws. *)
Definition tracker_auth_fails : QuotaCalls.Call :=
  {| QuotaCalls.auth_status :=
       inr {| Quota.session_userId := Some "u2"; Quota.session_pro := false |};
     QuotaCalls.auth_tracker := inl db_down;
     QuotaCalls.new_limiter := None;
     QuotaCalls.get := fun _ _ => inr None |}.

(** The model writes [a.ts] and [b.ts] in one batch whose second write
    throws, then signals completion. *)
Definition model_partial_then_done (k : nat) : Round :=
  match k with
  | 0 => RoundResponse None [CallCreateOrUpdateFiles two_files second_write_fails]
  | _ => RoundResponse (Some "<task_summary>Wrote two files</task_summary>") []
  end.

(** * Properties *)

(** ** Strings and truthiness *)

Lemma truthy_true (s : string) : truthy s = true <-> s <> "".
Proof. destruct s; simpl; split; intros H; congruence. Qed.

Lemma truthy_false (s : string) : truthy s = false <-> s = "".
Proof. destruct s; simpl; split; intros H; congruence. Qed.

(** ** The terminal tool *)

Lemma string_app_nil_r (s : string) : s +:+ "" = s.
Proof.
  induction s as [|a s IH]; [reflexivity|].
  change (String a (s +:+ "") = String a s). by rewrite IH.
Qed.

Lemma string_app_assoc (a b c : string) : (a +:+ b) +:+ c = a +:+ (b +:+ c).
Proof.
  induction a as [|x a IH]; [reflexivity|].
  change (String x ((a +:+ b) +:+ c) = String x (a +:+ (b +:+ c))). by rewrite IH.
Qed.

Lemma captured_stdout_cons (ev : StreamEvent) (evs : list StreamEvent) :
  captured_stdout (ev :: evs) =
  match ev with
  | OnStdout d => d +:+ captured_stdout evs
  | OnStderr _ => captured_stdout evs
  end.
Proof. by destruct ev. Qed.

Lemma captured_stderr_cons (ev : StreamEvent) (evs : list StreamEvent) :
  captured_stderr (ev :: evs) =
  match ev with
  | OnStderr d => d +:+ captured_stderr evs
  | OnStdout _ => captured_stderr evs
  end.
Proof. by destruct ev. Qed.

Lemma buffers_capture (evs : list StreamEvent) (b : Buffers) :
  foldl on_event b evs =
  {| buf_stdout := buf_stdout b +:+ captured_stdout evs;
     buf_stderr := buf_stderr b +:+ captured_stderr evs |}.
Proof.
  revert b. induction evs as [|ev evs IH]; intros b.
  - change (captured_stdout []) with "". change (captured_stderr []) with "".
    rewrite !string_app_nil_r. by destruct b.
  - rewrite captured_stdout_cons, captured_stderr_cons.
    change (foldl on_event b (ev :: evs)) with (foldl on_event (on_event b ev) evs).
    rewrite IH. destruct ev; simpl; by rewrite string_app_assoc.
Qed.

(** ** createOrUpdateFiles: what the loop does to the heap *)

Lemma assign_dom (o : gmap string string) (key value : string) :
  dom o ⊆ dom (assign o key value).
Proof. unfold assign. case_decide; [done|]. rewrite dom_insert_L. set_solver. Qed.

Lemma deref_set_property (h : Heap) (l : loc) (p c : string) :
  deref (set_property h l p c) l = assign (deref h l) p c.
Proof. unfold deref at 1, set_property. by rewrite lookup_insert_eq. Qed.

Lemma write_loop_deref (env : WriteEnv) (fs : list FileArg) (i : nat) (l : loc) (h : Heap) :
  deref (write_loop env i fs l h).1 l = merged env i fs (deref h l).
Proof.
  revert i h. induction fs as [|f fs IH]; intros i h; simpl; [done|].
  destruct (w_write env i); simpl; [done|].
  by rewrite IH, deref_set_property.
Qed.

Lemma merged_dom (env : WriteEnv) (fs : list FileArg) (i : nat) (m : gmap string string) :
  dom m ⊆ dom (merged env i fs m).
Proof.
  revert i m. induction fs as [|f fs IH]; intros i m; simpl; [done|].
  destruct (w_write env i); [done|].
  etrans; [|apply IH]. apply assign_dom.
Qed.

(** C10.  terminal (prompt.ts 593-611): when the sandbox is found and the
    command completes without throwing, the handler gives the agent
    [result.stdout] and nothing else, whatever the callbacks captured; when
    the command throws, it gives the formatted failure string, which embeds
    the thrown value, the captured stdout and the captured stderr. *)
Theorem terminal_output (env : TerminalEnv) (command : string) :
  term_getSandbox env = None ->
  (forall result, cmd_end (term_run env command) = inr result ->
     terminal_handler env command = VString (result_stdout result)) /\
  (forall e, cmd_end (term_run env command) = inl e ->
     terminal_handler env command =
     VString ("Command failed: " +:+ exn_string e +:+ " " +:+ LF +:+
              "stdout: " +:+ captured_stdout (cmd_events (term_run env command)) +:+ LF +:+
              "stderr: " +:+ captured_stderr (cmd_events (term_run env command)))).
Proof.
  intros Hsb. unfold terminal_handler. rewrite Hsb. split.
  - intros result Hend. by rewrite Hend.
  - intros e Hend. rewrite Hend, buffers_capture. reflexivity.
Qed.

(** C10 on a command that prints on both streams and returns. *)
Lemma terminal_output_witness :
  terminal_handler ls_env "ls" = VString ("app" +:+ LF).
Proof. exact (proj1 (terminal_output ls_env "ls" eq_refl) _ eq_refl). Defined.

(** When the sandbox lookup itself throws, nothing was captured. *)
Lemma terminal_no_sandbox (env : TerminalEnv) (command : string) (e : Exn) :
  term_getSandbox env = Some e ->
  terminal_handler env command = VString (command_failed e no_buffers).
Proof. intros H. unfold terminal_handler. by rewrite H. Qed.

(** ** createOrUpdateFiles *)








(** In the invocation that ran the callback the first file of that batch was
    written into the file map; the workflow does not go on with that map. *)
Example createOrUpdateFiles_callback_partial_write :
  let '(hc, _) :=
    createOrUpdateFiles_callback second_write_fails two_files initial_heap initial_state in
  deref hc 0 = {[ "a.ts" := "x" ]}.
Proof. vm_compute. reflexivity. Qed.

(** A failure before the first successful write leaves the map as it was. *)
Lemma createOrUpdateFiles_fails_at_once (env : WriteEnv) (fs : list FileArg)
    (h : Heap) (st : AgentState) :
  (is_Some (w_getSandbox env) \/ (fs <> [] /\ is_Some (w_write env 0))) ->
  let '(h1, st1, _) := createOrUpdateFiles_handler env fs h st in
  st1 = st /\ files_of h1 st1 = files_of h st.
Proof.
  intros Hfail.
  unfold createOrUpdateFiles_handler, createOrUpdateFiles_step, createOrUpdateFiles_callback.
  destruct Hfail as [[e He]|[Hne [e He]]].
  - rewrite He. by destruct (files st).
  - destruct fs as [|f fs]; [done|]. simpl. rewrite He.
    destruct (files st); simpl; by destruct (w_getSandbox env).
Qed.

(** ** The keys of [files] across tool invocations *)

Lemma createOrUpdateFiles_dom (env : WriteEnv) (fs : list FileArg)
    (h : Heap) (st : AgentState) :
  dom (files_of h st) ⊆
  dom (files_of (createOrUpdateFiles_handler env fs h st).1.1
                (createOrUpdateFiles_handler env fs h st).1.2).
Proof.
  unfold createOrUpdateFiles_handler, createOrUpdateFiles_step, createOrUpdateFiles_callback.
  destruct (files st) as [l|] eqn:Hf.
  - destruct (w_getSandbox env); simpl; [done|].
    pose proof (write_loop_deref env fs 0 l h) as Hd.
    destruct (write_loop env 0 fs l h) as [hc [e|]]; simpl in *; [done|].
    unfold files_of at 2. simpl. unfold deref at 1. rewrite lookup_insert_eq. simpl.
    rewrite Hd. unfold files_of. rewrite Hf. apply merged_dom.
  - assert (files_of h st = ∅) as -> by (unfold files_of; by rewrite Hf).
    rewrite dom_empty_L. apply empty_subseteq.
Qed.

Lemma invoke_tool_dom (c : ToolCall) (h : Heap) (st : AgentState) :
  dom (files_of h st) ⊆
  dom (files_of (invoke_tool c h st).1.1 (invoke_tool c h st).1.2).
Proof. destruct c; simpl; [done| apply createOrUpdateFiles_dom |done]. Qed.

(** No tool sets the summary. *)
Lemma invoke_tool_summary (c : ToolCall) (h : Heap) (st : AgentState) :
  summary (invoke_tool c h st).1.2 = summary st.
Proof.
  destruct c; simpl; try done.
  unfold createOrUpdateFiles_handler.
  destruct (createOrUpdateFiles_step env fs h st) as [h1 [| |]]; done.
Qed.

Lemma invoke_tools_dom (cs : list ToolCall) (h : Heap) (st : AgentState) :
  dom (files_of h st) ⊆
  dom (files_of (invoke_tools cs h st).1 (invoke_tools cs h st).2).
Proof.
  revert h st. induction cs as [|c cs IH]; intros h st; simpl; [done|].
  pose proof (invoke_tool_dom c h st) as Hc.
  destruct (invoke_tool c h st) as [[h1 st1] v]. simpl in Hc.
  etrans; [exact Hc | apply IH].
Qed.

Lemma onResponse_files (text : option string) (st : AgentState) :
  files (onResponse text st) = files st.
Proof. unfold onResponse. repeat case_match; done. Qed.

Lemma network_loop_dom (fuel : nat) (model : nat -> Round) (counter : nat)
    (h : Heap) (st : AgentState) :
  dom (files_of h st) ⊆
  dom (files_of (net_heap (network_loop fuel model counter h st))
                (net_state (network_loop fuel model counter h st))).
Proof.
  revert counter h st. induction fuel as [|fuel IH]; intros counter h st; simpl; [done|].
  destruct (router st) as [[]|]; [|done].
  destruct (model counter) as [e|text calls]; [done|].
  pose proof (invoke_tools_dom calls h (onResponse text st)) as Hc.
  destruct (invoke_tools calls h (onResponse text st)) as [h2 st2]. simpl in Hc.
  etrans; [|apply IH]. etrans; [|exact Hc].
  unfold files_of. by rewrite onResponse_files.
Qed.

(** C9.  Every key of [AgentState.files] before a tool invocation is a key
    after it, for each of the three tools and whatever the sandbox does
    (prompt.ts 593-667); hence also from the start to the end of the agent
    loop, response hook included. *)
Theorem files_keys_never_removed :
  (forall (c : ToolCall) (h : Heap) (st : AgentState),
     dom (files_of h st) ⊆
     dom (files_of (invoke_tool c h st).1.1 (invoke_tool c h st).1.2)) /\
  (forall (fuel : nat) (model : nat -> Round) (counter : nat) (h : Heap) (st : AgentState),
     dom (files_of h st) ⊆
     dom (files_of (net_heap (network_loop fuel model counter h st))
                   (net_state (network_loop fuel model counter h st)))).
Proof. split; [apply invoke_tool_dom | apply network_loop_dom]. Qed.

(** ** The completion check *)

(** C8.  [isError] (prompt.ts 699-701) holds exactly when the summary is
    empty or the file map has no entry. *)
Theorem isError_iff (h : Heap) (st : AgentState) :
  isError h st = true <-> summary st = "" \/ files_of h st = ∅.
Proof.
  unfold isError, Object_keys.
  rewrite orb_true_iff, negb_true_iff, truthy_false, Nat.eqb_eq, length_fmap.
  rewrite length_zero_iff_nil, map_to_list_empty_iff. done.
Qed.

(** ** The agent loop *)

Lemma router_halts (st : AgentState) : summary st <> "" -> router st = None.
Proof. intros H. unfold router. apply truthy_true in H. by rewrite H. Qed.

Lemma network_loop_rounds (fuel : nat) (model : nat -> Round) (counter : nat)
    (h : Heap) (st : AgentState) :
  counter <= net_rounds (network_loop fuel model counter h st) <= counter + fuel.
Proof.
  revert counter h st. induction fuel as [|fuel IH]; intros counter h st; simpl; [lia|].
  destruct (router st) as [[]|]; simpl; [|lia].
  destruct (model counter) as [e|text calls]; simpl; [lia|].
  destruct (invoke_tools calls h (onResponse text st)) as [h2 st2].
  specialize (IH (S counter) h2 st2). lia.
Qed.

Lemma network_loop_halted (k n : nat) (model : nat -> Round) (counter : nat)
    (h : Heap) (st : AgentState) :
  k <= n ->
  summary (net_state (network_loop k model counter h st)) <> "" ->
  network_loop n model counter h st = network_loop k model counter h st.
Proof.
  revert n counter h st. induction k as [|k IH]; intros n counter h st Hle Hsum.
  - simpl in *. destruct n as [|n]; [done|]. simpl. by rewrite router_halts.
  - destruct n as [|n]; [lia|]. simpl in *.
    destruct (router st) as [[]|]; [|done].
    destruct (model counter) as [e|text calls]; [done|].
    destruct (invoke_tools calls h (onResponse text st)) as [h2 st2].
    apply IH; [lia | done].
Qed.

(** C6.  Let the loop run for at most [k] rounds.  If the summary it leaves is
    non-empty, the router names no agent on it, and a loop allowed any larger
    number of rounds ends with the same result: the coding agent starts no
    round after the one that left the summary (at most [k] rounds in all). *)
Theorem no_round_after_summary (model : nat -> Round) (k n : nat) :
  k <= n ->
  summary (net_state (network_loop k model 0 initial_heap initial_state)) <> "" ->
  router (net_state (network_loop k model 0 initial_heap initial_state)) = None /\
  network_loop n model 0 initial_heap initial_state
    = network_loop k model 0 initial_heap initial_state /\
  net_rounds (network_loop n model 0 initial_heap initial_state) <= k.
Proof.
  intros Hle Hsum. split; [by apply router_halts|].
  rewrite (network_loop_halted k n) by done. split; [done|].
  pose proof (network_loop_rounds k model 0 initial_heap initial_state). lia.
Qed.

(** C6 on the Run of [model_converges], which leaves its summary in the
    third round. *)
Lemma no_round_after_summary_witness :
  router (net_state (network_loop 3 model_converges 0 initial_heap initial_state)) = None /\
  network_loop 15 model_converges 0 initial_heap initial_state
    = network_loop 3 model_converges 0 initial_heap initial_state /\
  net_rounds (network_loop 15 model_converges 0 initial_heap initial_state) <= 3.
Proof.
  apply (no_round_after_summary model_converges 3 15); [lia|].
  vm_compute. discriminate.
Defined.

(** C7.  The coding agent starts at most 15 rounds in a Run, whatever the
    model answers and whether or not a summary is ever set. *)
Theorem at_most_15_rounds (model : nat -> Round) :
  net_rounds (network_run model) <= 15.
Proof.
  unfold network_run.
  pose proof (network_loop_rounds maxIter model 0 initial_heap initial_state) as H.
  unfold maxIter in *. lia.
Qed.

(** ** The workflow: what each block does to the world *)

(** Unfolds the combinators of [Wf]. *)
Ltac unfold_wf := unfold try_catch, bind, await, await_void, ret, throw.

(** Splits on every outcome the goal still matches on, then closes the
    cases. *)
Ltac by_outcomes := repeat case_match; intros; simplify_eq/=; eauto 10.

Section Workflow.
Context (ev : Event) (env : Env).

Lemma refund_credit_step_spec (renv : Usage.RefundEnv) (w : World) :
  exists w1,
    refund_credit_step renv ev w = (w1, inr tt) /\
    messages w1 = messages w /\
    run_sandboxId w1 = run_sandboxId w /\
    refund_calls w1 = refund_calls w ++ [ev_userId ev] /\
    (rewards w1 = rewards w \/
     exists userId, rewards w1 = rewards w ++ [(userId, Usage.GENERATION_COST)]).
Proof.
  unfold refund_credit_step, Usage.refundCredit, Usage.log_refund_call, Usage.do_reward.
  unfold_wf.
  repeat case_match; simplify_eq/=; eexists; (split; [reflexivity|]); simpl; eauto 10.
Qed.

Lemma cleanup_sandbox_spec (w : World) :
  cleanup_sandbox env w = (w, inr tt).
Proof. unfold cleanup_sandbox, get_sandboxId. unfold_wf. by_outcomes. Qed.

Lemma completion_failed_spec (w w1 : World) (out : Exn + WorkflowResult) :
  completion_failed ev env w = (w1, out) ->
  refund_calls w1 = refund_calls w ++ [ev_userId ev] /\
  match out with
  | inr r => r = ErrorResult "Failed to generate code" /\
             exists now, create_error_result env = inr now /\
                         messages w1 = messages w ++ [error_result_message ev now]
  | inl e => create_error_result env = inl e /\ messages w1 = messages w
  end.
Proof.
  unfold completion_failed. unfold bind at 1.
  destruct (refund_credit_step_spec (refund_env env) w) as (w0 & -> & Hm & _ & Hc & _).
  unfold bind, message_create, ret.
  destruct (create_error_result env) as [e|now]; rewrite ?cleanup_sandbox_spec;
    intros; simplify_eq/=.
  - by rewrite Hm.
  - rewrite Hm. eauto.
Qed.

Lemma completion_succeeded_spec (h : Heap) (st : AgentState) (w w1 : World)
    (out : Exn + WorkflowResult) :
  completion_succeeded ev env h st w = (w1, out) ->
  refund_calls w1 = refund_calls w /\
  match out with
  | inr r => exists url title m,
               r = SuccessResult url title (files_of h st) (summary st) /\
               messages w1 = messages w ++ [m] /\
               type m = RESULT /\ projectId m = ev_projectId ev
  | inl _ => messages w1 = messages w
  end.
Proof. unfold completion_succeeded, message_create. unfold_wf. by_outcomes. Qed.

(** The [try] block: a success result comes with one RESULT row and no
    refund; an error result with one ERROR row and one refund call; a throw
    with no row and at most one refund call. *)
Lemma try_block_spec (w w1 : World) (out : Exn + WorkflowResult) :
  try_block ev env w = (w1, out) ->
  match out with
  | inr (SuccessResult _ _ _ _) =>
      refund_calls w1 = refund_calls w /\
      exists m, messages w1 = messages w ++ [m] /\
                type m = RESULT /\ projectId m = ev_projectId ev
  | inr (ErrorResult _) =>
      refund_calls w1 = refund_calls w ++ [ev_userId ev] /\
      exists now, messages w1 = messages w ++ [error_result_message ev now]
  | inl _ =>
      messages w1 = messages w /\
      (refund_calls w1 = refund_calls w \/
       refund_calls w1 = refund_calls w ++ [ev_userId ev])
  end.
Proof.
  unfold try_block, get_sandbox_id, set_sandboxId, get_previous_messages.
  unfold bind at 1 2 3 4 5, await, await_void, ret, throw.
  destruct (Sandbox_create env); [intros; simplify_eq/=; auto|].
  destruct (sandbox_setTimeout env); [intros; simplify_eq/=; auto|].
  destruct (message_findMany env); [intros; simplify_eq/=; auto|].
  destruct (net_thrown _); [intros; simplify_eq/=; auto|].
  destruct (isError _ _).
  - intros H. apply completion_failed_spec in H as [Hc Hout]. simpl in *.
    destruct out as [e|r].
    + destruct Hout as [_ ->]. auto.
    + destruct Hout as (-> & now & _ & ->). eauto.
  - intros H. apply completion_succeeded_spec in H as [Hc Hout]. simpl in *.
    destruct out as [e|r]; [auto|].
    destruct Hout as (url & title & m & -> & Hm & Ht & Hp). eauto.
Qed.

(** The [catch] block: always one refund call; one ERROR row unless a recent
    one is found; it throws only before any row is written. *)
Lemma catch_block_spec (error : Exn) (w w2 : World) (out : Exn + WorkflowResult) :
  catch_block ev env error w = (w2, out) ->
  refund_calls w2 = refund_calls w ++ [ev_userId ev] /\
  match out with
  | inr r =>
      r = ErrorResult (if exn_instanceof_Error error then exn_message error
                       else "Unknown error") /\
      match List.find (recent_error (ev_projectId ev) (Date_now env)) (messages w) with
      | Some _ => messages w2 = messages w
      | None => exists now, messages w2 = messages w ++ [unexpected_error_message ev now]
      end
  | inl e => messages w2 = messages w /\
             (message_findFirst env = Some e \/ create_error_message env = inl e)
  end.
Proof.
  unfold catch_block. unfold bind at 1.
  destruct (refund_credit_step_spec (refund_env_on_error env) w) as (w0 & -> & Hm & _ & Hc & _).
  unfold bind, message_findFirst_recent, message_create, ret.
  rewrite <- Hm.
  repeat case_match; rewrite ?cleanup_sandbox_spec in *; intros; simplify_eq/=; eauto.
Qed.

End Workflow.

(** ** The scenarios of the specification *)

(** Scenario B of the specification: three rounds, one RESULT message with
    the file map, a success result. *)
Example scenario_converges :
  net_rounds (network_run model_converges) = 3 /\
  exists w1 m,
    codeAgentFunction ev1 run_converges empty_world =
      (w1, inr (SuccessResult "https://3000-sbx.example.dev" "Counter"
                  {[ "app/page.tsx" := "export default Page" ]}
                  "<task_summary>Built a counter</task_summary>")) /\
    messages w1 = [m] /\ type m = RESULT /\ refund_calls w1 = [].
Proof. split; [reflexivity|]. do 2 eexists. vm_compute. repeat split; reflexivity. Qed.

(** Scenario A: fifteen rounds without a summary, files present. *)
Example scenario_never_done :
  net_rounds (network_run model_never_done) = 15 /\
  exists w1,
    codeAgentFunction ev1 (run_never_done 1000) empty_world =
      (w1, inr (ErrorResult "Failed to generate code")) /\
    messages w1 = [error_result_message ev1 1000] /\ refund_calls w1 = ["u1"] /\
    rewards w1 = [("u1", 1%Z)].
Proof. split; [reflexivity|]. eexists. vm_compute. repeat split; reflexivity. Qed.

(** Scenario D: provisioning throws. *)
Example scenario_no_sandbox :
  exists w1,
    codeAgentFunction ev1 (run_no_sandbox 1000) empty_world =
      (w1, inr (ErrorResult "sandbox quota exceeded")) /\
    messages w1 = [unexpected_error_message ev1 1000] /\ refund_calls w1 = ["u1"].
Proof. eexists. vm_compute. repeat split; reflexivity. Qed.

(** Scenario C: two batches, the second overwriting [a.ts]. *)
Example scenario_overwrite :
  let '(h1, st1, _) :=
    createOrUpdateFiles_handler writes_ok two_files initial_heap initial_state in
  let '(h2, st2, _) :=
    createOrUpdateFiles_handler writes_ok [ {| path := "a.ts"; content := "z" |} ] h1 st1 in
  files_of h2 st2 = {[ "a.ts" := "z"; "b.ts" := "y" ]}.
Proof. vm_compute. reflexivity. Qed.

(** ** Messages persisted by a Run *)

Lemma find_some_elem (P : Message -> bool) (ms : list Message) (m : Message) :
  List.find P ms = Some m -> m ∈ ms /\ P m = true.
Proof.
  intros H. apply List.find_some in H as [Hin HP].
  split; [by apply list_elem_of_In | done].
Qed.

Lemma find_none_elem (P : Message -> bool) (ms : list Message) (m : Message) :
  m ∈ ms -> P m = true -> List.find P ms <> None.
Proof.
  intros Hin HP Hnone. apply list_elem_of_In in Hin.
  pose proof (List.find_none P ms Hnone m Hin). congruence.
Qed.

(** C1, as the code has it.  A Run that returns a result has persisted:
    one RESULT message and nothing else when it returns success; otherwise one
    ERROR message and nothing else, except that it has persisted nothing when
    the [try] block threw and the project already holds an ERROR message
    created no earlier than 60000 ms before the handler's [Date.now()]. *)
Theorem messages_of_a_returning_run (ev : Event) (env : Env) (w w' : World)
    (r : WorkflowResult) :
  codeAgentFunction ev env w = (w', inr r) ->
  match r with
  | SuccessResult _ _ _ _ =>
      exists m, messages w' = messages w ++ [m] /\ type m = RESULT
  | ErrorResult _ =>
      (exists m, messages w' = messages w ++ [m] /\ type m = ERROR) \/
      (messages w' = messages w /\
       (exists w1 e, try_block ev env (start_run w) = (w1, inl e)) /\
       exists m, m ∈ messages w /\
                 recent_error (ev_projectId ev) (Date_now env) m = true)
  end.
Proof.
  unfold codeAgentFunction, try_catch.
  destruct (try_block ev env (start_run w)) as [w1 [e|r1]] eqn:Htry; intros Hrun.
  - pose proof (try_block_spec _ _ _ _ _ Htry) as [Hm1 _]. simpl in Hm1.
    apply catch_block_spec in Hrun as [_ [-> Hfind]].
    rewrite Hm1 in Hfind.
    destruct (List.find _ (messages w)) as [m|] eqn:Hf.
    + right. rewrite Hfind. apply find_some_elem in Hf as [Hin Hrec]. eauto 10.
    + left. destruct Hfind as [now ->]. eauto.
  - simplify_eq. pose proof (try_block_spec _ _ _ _ _ Htry) as Hspec.
    destruct r as [url t fs sm|msg]; simpl in *.
    + destruct Hspec as [_ (m & -> & Ht & _)]. eauto.
    + destruct Hspec as [_ [now ->]]. left. eauto.
Qed.

(** C1 on the Run of scenario B. *)
Lemma messages_of_a_returning_run_witness :
  exists m,
    messages (codeAgentFunction ev1 run_converges empty_world).1 = messages empty_world ++ [m] /\
    type m = RESULT.
Proof.
  exact (messages_of_a_returning_run ev1 run_converges empty_world
           (codeAgentFunction ev1 run_converges empty_world).1
           (SuccessResult "https://3000-sbx.example.dev" "Counter"
              {[ "app/page.tsx" := "export default Page" ]}
              "<task_summary>Built a counter</task_summary>")
           eq_refl).
Defined.

(** C1 as stated fails: provisioning throws 29 s after the project's last
    error report; the Run ends in the outer handler, returns an error result,
    and has persisted no message. *)
Lemma outer_handler_persists_nothing :
  exists w1,
    codeAgentFunction ev1 (run_no_sandbox 30000) world_after_error =
      (w1, inr (ErrorResult "sandbox quota exceeded")) /\
    messages w1 = messages world_after_error.
Proof. eexists. vm_compute. split; reflexivity. Qed.

(** C2, as the code has it.  A fault routed to the outer handler (the [try]
    block threw) persists no ERROR message when the project holds an ERROR
    message created no earlier than 60000 ms before the handler's
    [Date.now()]; a failure of the completion check that is reported (the
    [try] block returned an error result) always appends its ERROR message. *)
Theorem error_deduplication (ev : Event) (env : Env) (w w' : World)
    (out : Exn + WorkflowResult) :
  codeAgentFunction ev env w = (w', out) ->
  (forall w1 e m,
     try_block ev env (start_run w) = (w1, inl e) ->
     m ∈ messages w ->
     recent_error (ev_projectId ev) (Date_now env) m = true ->
     messages w' = messages w) /\
  (forall w1 msg,
     try_block ev env (start_run w) = (w1, inr (ErrorResult msg)) ->
     exists now, messages w' = messages w ++ [error_result_message ev now]).
Proof.
  unfold codeAgentFunction, try_catch. intros Hrun. split.
  - intros w1 e m Htry Hin Hrecent. rewrite Htry in Hrun.
    pose proof (try_block_spec _ _ _ _ _ Htry) as [Hm1 _]. simpl in Hm1.
    apply catch_block_spec in Hrun as [_ Hout]. rewrite Hm1 in Hout.
    destruct out as [e'|r]; [by destruct Hout|].
    destruct Hout as [_ Hfind].
    destruct (List.find _ (messages w)) eqn:Hf; [congruence|].
    by apply (find_none_elem _ _ _ Hin Hrecent) in Hf.
  - intros w1 msg Htry. rewrite Htry in Hrun. simplify_eq.
    apply try_block_spec in Htry as [_ Hnow]. exact Hnow.
Qed.

(** C2 on a provisioning fault 29 s after an error report of the project. *)
Lemma error_deduplication_witness :
  messages (codeAgentFunction ev1 (run_no_sandbox 30000) world_after_error).1
    = messages world_after_error.
Proof.
  exact (proj1 (error_deduplication ev1 (run_no_sandbox 30000) world_after_error _ _ eq_refl)
           _ quota (error_result_message ev1 1000) eq_refl
           (list_elem_of_here _ _) eq_refl).
Defined.

(** C2 as stated fails: two Runs of one project fail the completion check one
    second apart, and the project holds two ERROR messages. *)
Lemma two_reported_failures_two_messages :
  exists w1 w2,
    codeAgentFunction ev1 (run_never_done 1000) empty_world =
      (w1, inr (ErrorResult "Failed to generate code")) /\
    codeAgentFunction ev1 (run_never_done 2000) w1 =
      (w2, inr (ErrorResult "Failed to generate code")) /\
    error_messages "p1" (messages w2) =
      [error_result_message ev1 1000; error_result_message ev1 2000].
Proof. do 2 eexists. vm_compute. repeat split; reflexivity. Qed.

(** ** Refunds *)

(** C4.  A Run whose completion check fails and whose step save-error-result
    throws calls [refundCredit] twice for its user, once in step refund-credit
    and once more in step refund-credit-on-error; the ledger credits
    [GENERATION_COST] twice. *)
Theorem refunded_twice :
  exists w1,
    codeAgentFunction ev1 run_never_done_db_down empty_world =
      (w1, inr (ErrorResult "connection refused")) /\
    refund_calls w1 = ["u1"; "u1"] /\
    rewards w1 = [("u1", Usage.GENERATION_COST); ("u1", Usage.GENERATION_COST)] /\
    messages w1 = [unexpected_error_message ev1 1000].
Proof. eexists. vm_compute. repeat split; reflexivity. Qed.

(** A Run that does not return success calls [refundCredit] once or twice,
    and twice only when the [try] block threw after its own refund. *)
Lemma refund_calls_of_a_failed_run (ev : Event) (env : Env) (w w' : World)
    (out : Exn + WorkflowResult) :
  codeAgentFunction ev env w = (w', out) ->
  match out with
  | inr (SuccessResult _ _ _ _) => refund_calls w' = refund_calls w
  | _ => refund_calls w' = refund_calls w ++ [ev_userId ev] \/
         refund_calls w' = refund_calls w ++ [ev_userId ev; ev_userId ev]
  end.
Proof.
  unfold codeAgentFunction, try_catch.
  destruct (try_block ev env (start_run w)) as [w1 [e|r1]] eqn:Htry; intros Hrun.
  - apply try_block_spec in Htry as [_ Hc1]. simpl in Hc1.
    apply catch_block_spec in Hrun as [Hc2 Hout].
    assert (refund_calls w' = refund_calls w ++ [ev_userId ev] \/
            refund_calls w' = refund_calls w ++ [ev_userId ev; ev_userId ev]) as Hc.
    { destruct Hc1 as [Hc1|Hc1]; rewrite Hc2, Hc1; [by left|right].
      by rewrite <- app_assoc. }
    destruct out as [e'|r]; [done|]. destruct Hout as [-> _]. done.
  - simplify_eq. apply try_block_spec in Htry.
    destruct r1; simpl in *; [by destruct Htry | left; by destruct Htry].
Qed.

(** ** The public boundary *)

(** C5.  When provisioning throws and the [findFirst] of step
    save-error-message throws as well, the workflow function throws: no
    result object is returned. *)
Theorem outer_handler_throws :
  exists w1,
    codeAgentFunction ev1 run_no_sandbox_db_down empty_world = (w1, inl db_down) /\
    messages w1 = [] /\ refund_calls w1 = ["u1"].
Proof. eexists. vm_compute. repeat split; reflexivity. Qed.

(** The result objects the workflow returns when it returns. *)
Lemma result_shape (ev : Event) (env : Env) (w w' : World) (r : WorkflowResult) :
  codeAgentFunction ev env w = (w', inr r) ->
  (exists w1, try_block ev env (start_run w) = (w1, inr r)) \/
  (exists w1 e, try_block ev env (start_run w) = (w1, inl e) /\
     r = ErrorResult (if exn_instanceof_Error e then exn_message e else "Unknown error")).
Proof.
  unfold codeAgentFunction, try_catch.
  destruct (try_block ev env (start_run w)) as [w1 [e|r1]] eqn:Htry; intros Hrun.
  - right. apply catch_block_spec in Hrun as [_ [-> _]]. eauto.
  - left. simplify_eq. eauto.
Qed.

(** The workflow throws only out of step save-error-message. *)
Lemma throws_only_from_the_handler (ev : Event) (env : Env) (w w' : World) (e : Exn) :
  codeAgentFunction ev env w = (w', inl e) ->
  message_findFirst env = Some e \/ create_error_message env = inl e.
Proof.
  unfold codeAgentFunction, try_catch.
  destruct (try_block ev env (start_run w)) as [w1 [e1|r1]]; [|congruence].
  intros Hrun. by apply catch_block_spec in Hrun as [_ [_ Hsrc]].
Qed.

(** * Further properties of the agent loop *)

Lemma includes_empty (needle : string) : needle <> "" -> includes "" needle = false.
Proof. destruct needle; [done|]. reflexivity. Qed.

Lemma onResponse_summary (text : option string) (st : AgentState) :
  summary (onResponse text st) = summary st \/
  (text = Some (summary (onResponse text st)) /\
   includes (summary (onResponse text st)) TASK_SUMMARY = true).
Proof. unfold onResponse. repeat case_match; simpl; auto. Qed.

Lemma invoke_tools_summary (cs : list ToolCall) (h : Heap) (st : AgentState) :
  summary (invoke_tools cs h st).2 = summary st.
Proof.
  revert h st. induction cs as [|c cs IH]; intros h st; simpl; [done|].
  pose proof (invoke_tool_summary c h st) as Hc.
  destruct (invoke_tool c h st) as [[h1 st1] v]. simpl in Hc.
  by rewrite IH.
Qed.

Lemma network_loop_marked (fuel : nat) (model : nat -> Round) (counter : nat)
    (h : Heap) (st : AgentState) :
  unset_or_marked (summary st) ->
  unset_or_marked (summary (net_state (network_loop fuel model counter h st))).
Proof.
  revert counter h st. induction fuel as [|fuel IH]; intros counter h st Hst; simpl; [done|].
  destruct (router st) as [[]|]; [|done].
  destruct (model counter) as [e|text calls]; [done|].
  pose proof (invoke_tools_summary calls h (onResponse text st)) as Hs.
  destruct (invoke_tools calls h (onResponse text st)) as [h2 st2]. simpl in Hs.
  apply IH. rewrite Hs.
  destruct (onResponse_summary text st) as [->|[_ Hm]]; [done | by right].
Qed.

(** The summary a Run ends with is empty or contains [<task_summary>],
    whatever the model answers. *)
Theorem summary_unset_or_marked (model : nat -> Round) :
  summary (net_state (network_run model)) = "" \/
  includes (summary (net_state (network_run model))) TASK_SUMMARY = true.
Proof. apply network_loop_marked. by left. Qed.

Lemma network_loop_last_round (fuel : nat) (model : nat -> Round) (counter : nat)
    (h : Heap) (st : AgentState) :
  summary st = "" ->
  summary (net_state (network_loop fuel model counter h st)) <> "" ->
  net_thrown (network_loop fuel model counter h st) = None /\
  counter < net_rounds (network_loop fuel model counter h st) /\
  exists calls,
    model (net_rounds (network_loop fuel model counter h st) - 1) =
    RoundResponse (Some (summary (net_state (network_loop fuel model counter h st)))) calls.
Proof.
  revert counter h st. induction fuel as [|fuel IH]; intros counter h st Hst; simpl; [done|].
  unfold router. rewrite Hst. simpl.
  destruct (model counter) as [e|text calls] eqn:Hmodel; [done|].
  pose proof (invoke_tools_summary calls h (onResponse text st)) as Hs.
  destruct (invoke_tools calls h (onResponse text st)) as [h2 st2]. simpl in Hs.
  destruct (decide (summary st2 = "")) as [Hempty|Hset].
  - intros Hend. destruct (IH (S counter) h2 st2 Hempty Hend) as (Hth & Hlt & Hlast).
    split; [done|]. split; [lia | done].
  - assert (network_loop fuel model (S counter) h2 st2
            = mkNetworkResult (S counter) h2 st2 None) as ->.
    { destruct fuel; simpl; [done|]. by rewrite router_halts. }
    simpl. intros _. split; [done|]. split; [lia|].
    exists calls. rewrite Nat.sub_0_r, Hmodel, Hs.
    destruct (onResponse_summary text st) as [Heq|[Htext _]]; [congruence|].
    by f_equal.
Qed.

(** When a Run ends with a summary, no round threw, and the summary is the
    text of the last round the coding agent ran. *)
Theorem summary_is_text_of_last_round (model : nat -> Round) :
  summary (net_state (network_run model)) <> "" ->
  net_thrown (network_run model) = None /\
  1 <= net_rounds (network_run model) /\
  exists calls,
    model (net_rounds (network_run model) - 1) =
    RoundResponse (Some (summary (net_state (network_run model)))) calls.
Proof.
  unfold network_run. intros H.
  destruct (network_loop_last_round maxIter model 0 initial_heap initial_state
              eq_refl H) as (Hth & Hlt & Hlast).
  split; [done|]. split; [lia | done].
Qed.

Lemma summary_is_text_of_last_round_witness :
  net_thrown (network_run model_converges) = None /\
  1 <= net_rounds (network_run model_converges) /\
  exists calls,
    model_converges (net_rounds (network_run model_converges) - 1) =
    RoundResponse (Some (summary (net_state (network_run model_converges)))) calls.
Proof.
  apply (summary_is_text_of_last_round model_converges). vm_compute. discriminate.
Defined.

Lemma onResponse_unmarked (text : option string) (calls : list ToolCall) (st : AgentState) :
  unmarked (RoundResponse text calls) -> onResponse text st = st.
Proof. unfold onResponse. simpl. intros H. repeat case_match; congruence. Qed.

Lemma onResponse_marked (t : string) (st : AgentState) :
  includes t TASK_SUMMARY = true -> summary (onResponse (Some t) st) = t.
Proof.
  intros H. unfold onResponse. rewrite H.
  destruct t; [by rewrite includes_empty in H|]. reflexivity.
Qed.

Lemma network_loop_first_marker (fuel : nat) (model : nat -> Round) (counter k : nat)
    (h : Heap) (st : AgentState) (t : string) (calls : list ToolCall) :
  summary st = "" ->
  counter <= k < counter + fuel ->
  (forall j, counter <= j < k -> unmarked (model j)) ->
  model k = RoundResponse (Some t) calls ->
  includes t TASK_SUMMARY = true ->
  net_rounds (network_loop fuel model counter h st) = S k /\
  summary (net_state (network_loop fuel model counter h st)) = t /\
  net_thrown (network_loop fuel model counter h st) = None.
Proof.
  revert counter h st. induction fuel as [|fuel IH]; intros counter h st Hst Hk Hquiet Hmodel Ht;
    [lia|].
  cbn [network_loop]. unfold router. rewrite Hst. cbn [truthy].
  destruct (decide (counter = k)) as [->|Hne].
  - rewrite Hmodel.
    pose proof (invoke_tools_summary calls h (onResponse (Some t) st)) as Hs.
    destruct (invoke_tools calls h (onResponse (Some t) st)) as [h2 st2]. cbn [snd] in Hs.
    rewrite onResponse_marked in Hs by done.
    assert (summary st2 <> "") as Hset.
    { rewrite Hs. intros ->. by rewrite includes_empty in Ht. }
    assert (network_loop fuel model (S k) h2 st2 = mkNetworkResult (S k) h2 st2 None) as ->.
    { destruct fuel; simpl; [done|]. by rewrite router_halts. }
    done.
  - assert (unmarked (model counter)) as Hq by (apply Hquiet; lia).
    destruct (model counter) as [e|text cs] eqn:Hmc; [done|].
    rewrite (onResponse_unmarked text cs st Hq).
    pose proof (invoke_tools_summary cs h st) as Hs.
    destruct (invoke_tools cs h st) as [h2 st2]. simpl in Hs.
    apply IH; [congruence | lia | | done | done].
    intros j Hj. apply Hquiet. lia.
Qed.

(** The loop stops right after the first response that contains the marker:
    if round [k] (counted from 0, below the cap) is the first whose text
    contains [<task_summary>] and no earlier round throws, the coding agent
    runs exactly [k + 1] rounds and the summary is that text. *)
Theorem halts_at_first_marker (model : nat -> Round) (k : nat) (t : string)
    (calls : list ToolCall) :
  k < maxIter ->
  (forall j, j < k -> unmarked (model j)) ->
  model k = RoundResponse (Some t) calls ->
  includes t TASK_SUMMARY = true ->
  net_rounds (network_run model) = S k /\
  summary (net_state (network_run model)) = t /\
  net_thrown (network_run model) = None.
Proof.
  intros Hk Hquiet Hmodel Ht.
  apply (network_loop_first_marker maxIter model 0 k initial_heap initial_state t calls);
    [done | lia | | done | done].
  intros j Hj. apply Hquiet. lia.
Qed.

Lemma model_converges_unmarked (j : nat) : j < 2 -> unmarked (model_converges j).
Proof. intros Hj. destruct j as [|[|j]]; [exact I | reflexivity | lia]. Defined.

Lemma halts_at_first_marker_witness :
  net_rounds (network_run model_converges) = 3 /\
  summary (net_state (network_run model_converges))
    = "<task_summary>Built a counter</task_summary>" /\
  net_thrown (network_run model_converges) = None.
Proof.
  apply (halts_at_first_marker model_converges 2
           "<task_summary>Built a counter</task_summary>" []).
  - unfold maxIter. lia.
  - exact model_converges_unmarked.
  - reflexivity.
  - reflexivity.
Defined.

Lemma network_loop_unmarked (fuel : nat) (model : nat -> Round) (counter : nat)
    (h : Heap) (st : AgentState) :
  summary st = "" ->
  (forall j, counter <= j < counter + fuel -> unmarked (model j)) ->
  net_rounds (network_loop fuel model counter h st) = counter + fuel /\
  summary (net_state (network_loop fuel model counter h st)) = "" /\
  net_thrown (network_loop fuel model counter h st) = None.
Proof.
  revert counter h st. induction fuel as [|fuel IH]; intros counter h st Hst Hquiet.
  - simpl. split; [lia | done].
  - cbn [network_loop]. unfold router. rewrite Hst. cbn [truthy].
    assert (unmarked (model counter)) as Hq by (apply Hquiet; lia).
    destruct (model counter) as [e|text cs] eqn:Hmc; [done|].
    rewrite (onResponse_unmarked text cs st Hq).
    pose proof (invoke_tools_summary cs h st) as Hs.
    destruct (invoke_tools cs h st) as [h2 st2]. cbn [snd] in Hs.
    destruct (IH (S counter) h2 st2) as (Hr & Hsum & Hth); [congruence | |].
    { intros j Hj. apply Hquiet. lia. }
    split; [lia | done].
Qed.

Section NonConvergence.
Context (ev : Event) (env : Env).

Lemma completion_failed_returns (w : World) (now : Z) :
  create_error_result env = inr now ->
  exists w1,
    completion_failed ev env w = (w1, inr (ErrorResult "Failed to generate code")) /\
    messages w1 = messages w ++ [error_result_message ev now] /\
    refund_calls w1 = refund_calls w ++ [ev_userId ev].
Proof.
  intros Hcreate. unfold completion_failed. unfold bind at 1.
  destruct (refund_credit_step_spec ev (refund_env env) w) as (w0 & -> & Hm & _ & Hc & _).
  unfold bind, message_create, ret. rewrite Hcreate, cleanup_sandbox_spec.
  eexists. split; [reflexivity|]. simpl. by rewrite Hm, Hc.
Qed.

(** Non-convergence end to end: when provisioning and the history query
    succeed, none of the 15 rounds throws or answers with the marker, and
    the error row can be created, the coding agent runs exactly 15 rounds
    and the workflow returns the error result of the completion check, with
    one ERROR row and one refund call. *)
Theorem non_convergence_is_reported (w : World) (sandboxId : string)
    (rows : list Message) (now : Z) :
  Sandbox_create env = inr sandboxId ->
  sandbox_setTimeout env = None ->
  message_findMany env = inr rows ->
  (forall j, j < maxIter -> unmarked (model env j)) ->
  create_error_result env = inr now ->
  net_rounds (network_run (model env)) = 15 /\
  exists w1,
    codeAgentFunction ev env w = (w1, inr (ErrorResult "Failed to generate code")) /\
    messages w1 = messages w ++ [error_result_message ev now] /\
    refund_calls w1 = refund_calls w ++ [ev_userId ev].
Proof.
  intros Hsb Hto Hfm Hquiet Hcreate.
  destruct (network_loop_unmarked maxIter (model env) 0 initial_heap initial_state eq_refl)
    as (Hrounds & Hsum & Hth).
  { intros j Hj. apply Hquiet. lia. }
  split; [exact Hrounds|].
  unfold codeAgentFunction, try_catch, try_block, get_sandbox_id, set_sandboxId,
    get_previous_messages.
  unfold bind, await, await_void, ret.
  rewrite Hsb, Hto, Hfm. unfold network_run. rewrite Hth.
  unfold isError. rewrite Hsum. cbn [truthy negb orb].
  match goal with |- context [completion_failed ev env ?w0] =>
    destruct (completion_failed_returns w0 now Hcreate) as (w1 & -> & Hm & Hc) end.
  exists w1. split; [reflexivity|]. by rewrite Hm, Hc.
Qed.

End NonConvergence.

Lemma model_never_done_unmarked (j : nat) : j < maxIter -> unmarked (model_never_done j).
Proof. intros _. reflexivity. Defined.

Lemma non_convergence_is_reported_witness :
  net_rounds (network_run model_never_done) = 15 /\
  exists w1,
    codeAgentFunction ev1 (run_never_done 1000) empty_world =
      (w1, inr (ErrorResult "Failed to generate code")) /\
    messages w1 = messages empty_world ++ [error_result_message ev1 1000] /\
    refund_calls w1 = refund_calls empty_world ++ [ev_userId ev1].
Proof.
  exact (non_convergence_is_reported ev1 (run_never_done 1000) empty_world "sbx" [] 1000
           eq_refl eq_refl eq_refl model_never_done_unmarked eq_refl).
Defined.

(** * Further properties of the tools *)




Lemma read_entries_paths (env : ReadEnv) (fs : list string) (i : nat) :
  path <$> read_entries env i fs = fs.
Proof. revert i. induction fs as [|f fs IH]; intros i; simpl; [done|]. by rewrite IH. Qed.

Lemma read_loop_all (env : ReadEnv) (fs : list string) (i : nat) (acc : list FileArg) :
  (forall j p, fs !! j = Some p -> exists c, r_read env (i + j) p = inr c) ->
  read_loop env i fs acc = inr (acc ++ read_entries env i fs).
Proof.
  revert i acc. induction fs as [|f fs IH]; intros i acc Hok; simpl.
  - by rewrite app_nil_r.
  - destruct (Hok 0 f eq_refl) as [c Hc]. rewrite Nat.add_0_r in Hc. rewrite Hc.
    rewrite IH.
    + by rewrite <- app_assoc.
    + intros j p Hj. replace (S i + j) with (i + S j) by lia. by apply Hok.
Qed.

Lemma read_loop_first_error (env : ReadEnv) (fs : list string) (i k : nat)
    (acc : list FileArg) (p : string) (e : Exn) :
  fs !! k = Some p ->
  r_read env (i + k) p = inl e ->
  (forall j q, j < k -> fs !! j = Some q -> exists c, r_read env (i + j) q = inr c) ->
  read_loop env i fs acc = inl e.
Proof.
  revert i k acc. induction fs as [|f fs IH]; intros i k acc Hk He Hbefore; [done|].
  destruct k as [|k]; simpl in *.
  - simplify_eq. rewrite Nat.add_0_r in He. by rewrite He.
  - destruct (Hbefore 0 f) as [c Hc]; [lia | done |].
    rewrite Nat.add_0_r in Hc. rewrite Hc.
    apply (IH (S i) k); [done | by replace (S i + k) with (i + S k) by lia |].
    intros j q Hj Hq. replace (S i + j) with (i + S j) by lia.
    apply Hbefore; [lia | done].
Qed.

(** [readFiles] is all or nothing.  When every read returns, the agent gets
    the JSON array of one entry per requested path, in request order (a path
    asked twice is read and listed twice).  When the read of some path throws
    and all earlier reads returned, the agent gets only the error string of
    that throw: what the earlier reads gave is dropped. *)
Theorem readFiles_all_or_nothing (env : ReadEnv) (fs : list string) :
  r_getSandbox env = None ->
  ((forall j p, fs !! j = Some p -> exists c, r_read env j p = inr c) ->
   readFiles_handler env fs = VString (JSON_stringify (read_entries env 0 fs)) /\
   path <$> read_entries env 0 fs = fs) /\
  (forall k p e,
     fs !! k = Some p ->
     r_read env k p = inl e ->
     (forall j q, j < k -> fs !! j = Some q -> exists c, r_read env j q = inr c) ->
     readFiles_handler env fs = VString ("Error:" +:+ exn_string e)).
Proof.
  intros Hsb. unfold readFiles_handler. rewrite Hsb. split.
  - intros Hok. rewrite (read_loop_all env fs 0 []) by done.
    split; [done | apply read_entries_paths].
  - intros k p e Hk He Hbefore.
    by rewrite (read_loop_first_error env fs 0 k [] p e).
Qed.

(** [readFiles] on one path whose read returns. *)
Lemma readFiles_all_or_nothing_witness :
  readFiles_handler reads_ok ["/home/user/app/page.tsx"] =
    VString (JSON_stringify (read_entries reads_ok 0 ["/home/user/app/page.tsx"])) /\
  path <$> read_entries reads_ok 0 ["/home/user/app/page.tsx"] = ["/home/user/app/page.tsx"].
Proof.
  apply (proj1 (readFiles_all_or_nothing reads_ok ["/home/user/app/page.tsx"] eq_refl)).
  intros j p _. eexists. reflexivity.
Defined.

(** * Further properties of [refundCredit] *)

(** [refundCredit] credits exactly once or not at all: when it returns, the
    ledger has accepted one reward of [GENERATION_COST] for a non-empty user
    id, which is the argument when that is non-empty and the signed-in user
    otherwise; when it throws, the ledger is as before.  It throws whenever
    [auth()] throws, even if a user id was passed.  It never touches the
    message table. *)
Theorem refundCredit_credits_once_or_not (env : Usage.RefundEnv) (userIdParam : string)
    (w w1 : World) (out : Exn + unit) :
  Usage.refundCredit env userIdParam w = (w1, out) ->
  messages w1 = messages w /\
  (forall e, Usage.auth env = inl e -> out = inl e) /\
  match out with
  | inr _ =>
      exists userId,
        userId <> "" /\
        (userIdParam <> "" -> userId = userIdParam) /\
        (userIdParam = "" -> Usage.auth env = inr (Some userId)) /\
        rewards w1 = rewards w ++ [(userId, Usage.GENERATION_COST)]
  | inl _ => rewards w1 = rewards w
  end.
Proof.
  unfold Usage.refundCredit, Usage.log_refund_call, Usage.do_reward. unfold_wf.
  destruct userIdParam as [|a u]; simpl;
    repeat case_match; intros; simplify_eq/=;
    (split; [done|]); (split; [by intros; simplify_eq|]); try done;
    eexists; refine (conj _ (conj _ (conj _ eq_refl)));
    try (by apply truthy_true); try done; by intros; simplify_eq.
Qed.

Lemma refundCredit_credits_once_or_not_witness :
  exists userId,
    userId <> "" /\
    ("u1" <> "" -> userId = "u1") /\
    ("u1" = "" -> Usage.auth ledger_ok = inr (Some userId)) /\
    rewards (Usage.refundCredit ledger_ok "u1" empty_world).1
      = rewards empty_world ++ [(userId, Usage.GENERATION_COST)].
Proof.
  exact (proj2 (proj2 (refundCredit_credits_once_or_not ledger_ok "u1" empty_world
                         (Usage.refundCredit ledger_ok "u1" empty_world).1 (inr tt) eq_refl))).
Defined.

(** * Refund outcomes and the rest of a Run *)

Lemma same_but_rewards_refl (w : World) : same_but_rewards w w.
Proof. by repeat split. Qed.

Section Agree.
Context {A B : Type}.

Lemma agree_ret (a : A) : agree (ret a) (ret a).
Proof. intros w w' H. by split. Qed.

Lemma agree_throw (e : Exn) : agree (@throw A e) (throw e).
Proof. intros w w' H. by split. Qed.

Lemma agree_await (o : Exn + A) : agree (await o) (await o).
Proof. intros w w' H. by split. Qed.

Lemma agree_bind (m m' : Wf A) (k k' : A -> Wf B) :
  agree m m' -> (forall a, agree (k a) (k' a)) -> agree (bind m k) (bind m' k').
Proof.
  intros Hm Hk w w' Hw. unfold bind.
  destruct (Hm w w' Hw) as [Hw1 Hout].
  destruct (m w) as [w1 [e|a]], (m' w') as [w1' [e'|a']]; simplify_eq/=; [done|].
  by apply Hk.
Qed.

Lemma agree_try_catch (body body' : Wf A) (handler handler' : Exn -> Wf A) :
  agree body body' -> (forall e, agree (handler e) (handler' e)) ->
  agree (try_catch body handler) (try_catch body' handler').
Proof.
  intros Hb Hh w w' Hw. unfold try_catch.
  destruct (Hb w w' Hw) as [Hw1 Hout].
  destruct (body w) as [w1 [e|a]], (body' w') as [w1' [e'|a']]; simplify_eq/=; [|done].
  by apply Hh.
Qed.

End Agree.

Lemma agree_await_void (o : option Exn) : agree (await_void o) (await_void o).
Proof. intros w w' H. by split. Qed.

Lemma agree_set_sandboxId (id : string) : agree (set_sandboxId id) (set_sandboxId id).
Proof. intros w w' (Hm & Hc & Hs). unfold same_but_rewards. simpl. by rewrite Hm, Hc. Qed.

Lemma agree_message_create (o : Exn + Z) (data : Z -> Message) :
  agree (message_create o data) (message_create o data).
Proof.
  intros w w' (Hm & Hc & Hs). unfold message_create, same_but_rewards.
  destruct o; simpl; by rewrite Hm, Hc, Hs.
Qed.

Lemma agree_cleanup_sandbox (env env' : Env) :
  agree (cleanup_sandbox env) (cleanup_sandbox env').
Proof. intros w w' H. by rewrite !cleanup_sandbox_spec. Qed.

Lemma agree_refund_credit_step (r r' : Usage.RefundEnv) (ev : Event) :
  agree (refund_credit_step r ev) (refund_credit_step r' ev).
Proof.
  intros w w' (Hm & Hc & Hs).
  destruct (refund_credit_step_spec ev r w) as (w1 & -> & Hm1 & Hs1 & Hc1 & _).
  destruct (refund_credit_step_spec ev r' w') as (w1' & -> & Hm1' & Hs1' & Hc1' & _).
  unfold same_but_rewards. simpl. by rewrite Hm1, Hm1', Hc1, Hc1', Hs1, Hs1', Hm, Hc, Hs.
Qed.

Lemma agree_message_findFirst_recent (ev : Event) (env env' : Env) :
  Date_now env = Date_now env' ->
  message_findFirst env = message_findFirst env' ->
  agree (message_findFirst_recent ev env) (message_findFirst_recent ev env').
Proof.
  intros Hnow Hff w w' (Hm & Hc & Hs). unfold message_findFirst_recent.
  rewrite Hnow, Hff, Hm. destruct (message_findFirst env'); simpl; by repeat split.
Qed.

Create HintDb agree.
#[local] Hint Resolve agree_ret agree_throw agree_await agree_await_void
  agree_set_sandboxId agree_message_create agree_cleanup_sandbox
  agree_refund_credit_step : agree.

(** Applies the congruence rules of [agree] through binds and handlers. *)
Ltac agree_steps :=
  repeat first
    [ solve [eauto with agree]
    | apply agree_bind; [|intros ?]
    | apply agree_try_catch; [|intros ?] ].

Section RefundOutcomes.
Context (ev : Event) (env : Env) (r1 r2 : Usage.RefundEnv).

Lemma agree_try_block :
  agree (try_block ev (with_refund_envs env r1 r2)) (try_block ev env).
Proof.
  unfold try_block, get_sandbox_id, get_previous_messages. cbn [with_refund_envs
    Sandbox_create sandbox_setTimeout message_findMany model].
  agree_steps.
  destruct (net_thrown _); [apply agree_throw|].
  destruct (isError _ _).
  - unfold completion_failed. cbn [with_refund_envs refund_env create_error_result].
    agree_steps.
  - unfold completion_succeeded. cbn [with_refund_envs fragmentTitleGenerator_run
      responseGenerator_run getSandbox_for_url sandbox_getHost create_success_result].
    agree_steps.
Qed.

Lemma agree_catch_block (error : Exn) :
  agree (catch_block ev (with_refund_envs env r1 r2) error) (catch_block ev env error).
Proof.
  unfold catch_block. cbn [with_refund_envs refund_env_on_error create_error_message].
  agree_steps.
  - by apply agree_message_findFirst_recent.
  - destruct a0; agree_steps.
Qed.

(** What the two refund steps meet (a ledger that is down, an [auth()] that
    throws, a reward that succeeds) shows neither in the value the workflow
    returns or throws nor in the message table nor in the number of refund
    calls: refund failures are swallowed where they occur. *)
Theorem refund_outcomes_do_not_show (w : World) :
  (codeAgentFunction ev (with_refund_envs env r1 r2) w).2 = (codeAgentFunction ev env w).2 /\
  messages (codeAgentFunction ev (with_refund_envs env r1 r2) w).1
    = messages (codeAgentFunction ev env w).1 /\
  refund_calls (codeAgentFunction ev (with_refund_envs env r1 r2) w).1
    = refund_calls (codeAgentFunction ev env w).1.
Proof.
  unfold codeAgentFunction.
  destruct (agree_try_catch _ _ _ _ agree_try_block agree_catch_block
              (start_run w) (start_run w) (same_but_rewards_refl _))
    as [(Hm & Hc & _) Hout].
  done.
Qed.

End RefundOutcomes.

(** * Further properties of the rows and results of a Run *)

Lemma isError_false (h : Heap) (st : AgentState) :
  isError h st = false -> summary st <> "" /\ files_of h st <> ∅.
Proof.
  unfold isError, Object_keys.
  rewrite orb_false_iff, negb_false_iff, Nat.eqb_neq, length_fmap.
  intros [Hs Hf]. split; [by apply truthy_true|].
  intros Hempty. apply Hf. by rewrite Hempty, map_to_list_empty.
Qed.

Section Rows.
Context (ev : Event) (env : Env).

(** All that a successful end of the [try] block fixes. *)
Lemma completion_succeeded_success (h : Heap) (st : AgentState) (w w1 : World)
    (url title sm : string) (fs : gmap string string) :
  completion_succeeded ev env h st w = (w1, inr (SuccessResult url title fs sm)) ->
  fs = files_of h st /\ sm = summary st /\
  rewards w1 = rewards w /\ refund_calls w1 = refund_calls w /\
  (exists host, url = "https://" +:+ host) /\
  exists now text,
    messages w1 = messages w ++
      [ {| projectId := ev_projectId ev; msg_content := text; role := ASSISTANT;
           type := RESULT; createdAt := now;
           fragment := Some {| sandboxUrl := url; title := title;
                               fragment_files := fs |} |} ].
Proof.
  unfold completion_succeeded, message_create. unfold_wf.
  repeat case_match; intros; simplify_eq/=. eauto 12.
Qed.

Lemma try_block_success (w w1 : World) (url title sm : string) (fs : gmap string string) :
  try_block ev env w = (w1, inr (SuccessResult url title fs sm)) ->
  net_thrown (network_run (model env)) = None /\
  isError (net_heap (network_run (model env))) (net_state (network_run (model env))) = false /\
  fs = files_of (net_heap (network_run (model env))) (net_state (network_run (model env))) /\
  sm = summary (net_state (network_run (model env))) /\
  rewards w1 = rewards w /\ refund_calls w1 = refund_calls w /\
  (exists host, url = "https://" +:+ host) /\
  exists now text,
    messages w1 = messages w ++
      [ {| projectId := ev_projectId ev; msg_content := text; role := ASSISTANT;
           type := RESULT; createdAt := now;
           fragment := Some {| sandboxUrl := url; title := title;
                               fragment_files := fs |} |} ].
Proof.
  unfold try_block, get_sandbox_id, set_sandboxId, get_previous_messages.
  unfold bind at 1 2 3 4 5, await, await_void, ret, throw.
  destruct (Sandbox_create env); [done|].
  destruct (sandbox_setTimeout env); [done|].
  destruct (message_findMany env); [done|].
  destruct (net_thrown _); [done|].
  destruct (isError _ _) eqn:Herr.
  - intros H. by apply completion_failed_spec in H as [_ [? _]].
  - intros H.
    apply completion_succeeded_success in H as (Hfs & Hsm & Hr & Hc & Hurl & Hrow).
    simpl in *. auto 10.
Qed.

Lemma error_result_row (now : Z) : row_of_run ev (error_result_message ev now).
Proof. unfold row_of_run. simpl. auto. Qed.

Lemma unexpected_error_row (now : Z) : row_of_run ev (unexpected_error_message ev now).
Proof. unfold row_of_run. simpl. auto. Qed.

Lemma try_block_rows (w w1 : World) (out : Exn + WorkflowResult) :
  try_block ev env w = (w1, out) ->
  exists new,
    messages w1 = messages w ++ new /\
    Forall (row_of_run ev) new /\
    length new = match out with inr _ => 1 | inl _ => 0 end.
Proof.
  intros Htry. destruct out as [e|[url title fs sm|msg]].
  - apply try_block_spec in Htry as [Hm _]. exists []. by rewrite app_nil_r.
  - apply try_block_success in Htry as (_ & _ & _ & _ & _ & _ & _ & now & text & ->).
    eexists. split; [reflexivity|]. split; [|done].
    constructor; [|done]. unfold row_of_run. simpl. eauto.
  - apply try_block_spec in Htry as [_ [now ->]].
    eexists. split; [reflexivity|]. split; [|done].
    constructor; [apply error_result_row | done].
Qed.

Lemma catch_block_rows (error : Exn) (w w2 : World) (out : Exn + WorkflowResult) :
  catch_block ev env error w = (w2, out) ->
  exists new,
    messages w2 = messages w ++ new /\
    Forall (row_of_run ev) new /\
    length new <= 1.
Proof.
  intros Hcatch. apply catch_block_spec in Hcatch as [_ Hout].
  destruct out as [e|r].
  - destruct Hout as [-> _]. exists []. rewrite app_nil_r. auto.
  - destruct Hout as [_ Hfind].
    destruct (List.find _ _).
    + exists []. rewrite app_nil_r. auto.
    + destruct Hfind as [now ->]. eexists. split; [reflexivity|].
      split; [|simpl; lia]. constructor; [apply unexpected_error_row | done].
Qed.

Lemma run_rows (w : World) :
  exists new,
    messages (codeAgentFunction ev env w).1 = messages w ++ new /\
    Forall (row_of_run ev) new /\
    length new <= 1.
Proof.
  unfold codeAgentFunction, try_catch.
  destruct (try_block ev env (start_run w)) as [w1 [e|r]] eqn:Htry.
  - pose proof (try_block_spec _ _ _ _ _ Htry) as [Hm _]. simpl in Hm.
    destruct (catch_block ev env e w1) as [w2 out] eqn:Hcatch.
    apply catch_block_rows in Hcatch as (new & Hnew & Hrows & Hlen).
    exists new. simpl. by rewrite Hnew, Hm.
  - apply try_block_rows in Htry as (new & Hnew & Hrows & Hlen).
    exists new. simpl in *. split; [done|]. split; [done | lia].
Qed.

End Rows.

(** A Run only appends to the message table, and at most one row: the rows
    that were there are still there, unchanged and in the same order, however
    the Run ends (success, error result or throw). *)
Theorem messages_are_append_only (ev : Event) (env : Env) (w : World) :
  exists new,
    messages (codeAgentFunction ev env w).1 = messages w ++ new /\
    length new <= 1.
Proof. destruct (run_rows ev env w) as (new & Hnew & _ & Hlen). eauto. Qed.

(** Every row a Run adds belongs to the event's project and has role
    ASSISTANT; an ERROR row has no fragment and carries one of the two fixed
    apologies, never the text of the thrown error; a RESULT row has a
    fragment. *)
Theorem rows_written_by_a_run (ev : Event) (env : Env) (w : World) (m : Message) :
  m ∈ messages (codeAgentFunction ev env w).1 ->
  m ∈ messages w \/
  (projectId m = ev_projectId ev /\
   role m = ASSISTANT /\
   match type m with
   | ERROR =>
       fragment m = None /\
       (msg_content m =
          "Sorry, I failed to generate a response. Please try again with a more specific prompt or simpler request." \/
        msg_content m = "Sorry, an unexpected error occurred. Please try again.")
   | RESULT => is_Some (fragment m)
   end).
Proof.
  destruct (run_rows ev env w) as (new & -> & Hrows & _).
  intros [Hold|Hnew]%elem_of_app; [by left | right].
  rewrite Forall_forall in Hrows. exact (Hrows m Hnew).
Qed.

Lemma rows_written_by_a_run_witness :
  unexpected_error_message ev1 1000 ∈ messages empty_world \/
  (projectId (unexpected_error_message ev1 1000) = ev_projectId ev1 /\
   role (unexpected_error_message ev1 1000) = ASSISTANT /\
   match type (unexpected_error_message ev1 1000) with
   | ERROR =>
       fragment (unexpected_error_message ev1 1000) = None /\
       (msg_content (unexpected_error_message ev1 1000) =
          "Sorry, I failed to generate a response. Please try again with a more specific prompt or simpler request." \/
        msg_content (unexpected_error_message ev1 1000)
          = "Sorry, an unexpected error occurred. Please try again.")
   | RESULT => is_Some (fragment (unexpected_error_message ev1 1000))
   end).
Proof.
  exact (rows_written_by_a_run ev1 (run_no_sandbox 1000) empty_world
           (unexpected_error_message ev1 1000) (list_elem_of_here _ _)).
Defined.

(** A success result is backed by the state of the agent loop: its summary
    is the loop's summary and contains [<task_summary>], its file map is the
    loop's file map and is not empty, its url starts with [https://], and
    the one row the Run has added is a RESULT row whose fragment holds the
    same url, title and files as the object returned. *)
Theorem success_result_is_backed (ev : Event) (env : Env) (w w' : World)
    (url title sm : string) (fs : gmap string string) :
  codeAgentFunction ev env w = (w', inr (SuccessResult url title fs sm)) ->
  sm = summary (net_state (network_run (model env))) /\
  includes sm TASK_SUMMARY = true /\
  fs = files_of (net_heap (network_run (model env))) (net_state (network_run (model env))) /\
  fs <> ∅ /\
  (exists host, url = "https://" +:+ host) /\
  exists m,
    messages w' = messages w ++ [m] /\
    type m = RESULT /\
    fragment m = Some {| sandboxUrl := url; title := title; fragment_files := fs |}.
Proof.
  unfold codeAgentFunction, try_catch.
  destruct (try_block ev env (start_run w)) as [w1 [e|r]] eqn:Htry; intros Hrun.
  - by apply catch_block_spec in Hrun as [_ [? _]].
  - simplify_eq.
    apply try_block_success in Htry
      as (_ & Herr & -> & -> & _ & _ & Hurl & now & text & Hrow).
    apply isError_false in Herr as [Hsum Hfiles].
    split; [done|]. split.
    { destruct (network_loop_marked maxIter (model env) 0 initial_heap initial_state)
        as [Hunset|Hmarked]; [by left | done | done]. }
    split; [done|]. split; [done|]. split; [done|].
    eexists. split; [exact Hrow | done].
Qed.

Lemma success_result_is_backed_witness :
  "<task_summary>Built a counter</task_summary>"
    = summary (net_state (network_run (model run_converges))) /\
  includes "<task_summary>Built a counter</task_summary>" TASK_SUMMARY = true /\
  ({[ "app/page.tsx" := "export default Page" ]} : gmap string string)
    = files_of (net_heap (network_run (model run_converges)))
               (net_state (network_run (model run_converges))) /\
  ({[ "app/page.tsx" := "export default Page" ]} : gmap string string) <> ∅ /\
  (exists host, "https://3000-sbx.example.dev" = "https://" +:+ host) /\
  exists m,
    messages (codeAgentFunction ev1 run_converges empty_world).1
      = messages empty_world ++ [m] /\
    type m = RESULT /\
    fragment m = Some {| sandboxUrl := "https://3000-sbx.example.dev"; title := "Counter";
                         fragment_files := {[ "app/page.tsx" := "export default Page" ]} |}.
Proof.
  exact (success_result_is_backed ev1 run_converges empty_world
           (codeAgentFunction ev1 run_converges empty_world).1
           "https://3000-sbx.example.dev" "Counter"
           "<task_summary>Built a counter</task_summary>"
           {[ "app/page.tsx" := "export default Page" ]} eq_refl).
Defined.

(** A Run that returns success leaves the credit ledger alone: it never
    calls [refundCredit] and no reward is recorded. *)
Theorem success_keeps_the_credit (ev : Event) (env : Env) (w w' : World)
    (url title sm : string) (fs : gmap string string) :
  codeAgentFunction ev env w = (w', inr (SuccessResult url title fs sm)) ->
  refund_calls w' = refund_calls w /\ rewards w' = rewards w.
Proof.
  unfold codeAgentFunction, try_catch.
  destruct (try_block ev env (start_run w)) as [w1 [e|r]] eqn:Htry; intros Hrun.
  - by apply catch_block_spec in Hrun as [_ [? _]].
  - simplify_eq. by apply try_block_success in Htry as (_ & _ & _ & _ & -> & -> & _).
Qed.

Lemma success_keeps_the_credit_witness :
  refund_calls (codeAgentFunction ev1 run_converges empty_world).1 = refund_calls empty_world /\
  rewards (codeAgentFunction ev1 run_converges empty_world).1 = rewards empty_world.
Proof.
  exact (success_keeps_the_credit ev1 run_converges empty_world
           (codeAgentFunction ev1 run_converges empty_world).1
           "https://3000-sbx.example.dev" "Counter"
           "<task_summary>Built a counter</task_summary>"
           {[ "app/page.tsx" := "export default Page" ]} eq_refl).
Defined.

(** * Properties of the quota functions *)

(** A [Quota.Request] is the run of [getUsageStatus] in which both [auth()]
    calls resolve alike and the limiter is built. *)
Lemma getUsageStatus_of_request (rq : Quota.Request) :
  QuotaCalls.getUsageStatus (QuotaCalls.of_request rq) = Quota.getUsageStatus rq.
Proof.
  unfold QuotaCalls.getUsageStatus, Quota.getUsageStatus, QuotaCalls.getUsageTracker,
    Quota.getUsageTracker. simpl.
  by destruct (Quota.auth rq).
Qed.

(** For a signed-in user, [getUsageStatus] throws exactly when building the
    tracker throws (its own [auth()] or the limiter constructor, both
    outside the [try]), and throws that value.  Once the tracker is built it
    returns: with a usage record it reports the record; with none, or when
    the lookup throws (swallowed), it reports nothing consumed and 75
    remaining points if its own [auth()] says pro, 5 otherwise.  That is the
    limit of the tracker whenever the tracker's [auth()] reports the same
    plan. *)
Theorem getUsageStatus_reports_the_tracker_limit (c : QuotaCalls.Call)
    (session : Quota.Session) (userId : string) :
  QuotaCalls.auth_status c = inr session ->
  Quota.session_userId session = Some userId ->
  userId <> "" ->
  match QuotaCalls.getUsageTracker c with
  | inl e => QuotaCalls.getUsageStatus c = inl e
  | inr tracker =>
      (exists status,
         QuotaCalls.getUsageStatus c = inr status /\
         match QuotaCalls.get c tracker userId with
         | inr (Some result) => status = result
         | _ => status = {| Quota.remainingPoints :=
                              (if Quota.session_pro session then 75 else 5)%Z;
                            Quota.msBeforeNext := 0; Quota.consumedPoints := 0;
                            Quota.isFirstInDuration := true |}
         end) /\
      (forall session',
         QuotaCalls.auth_tracker c = inr session' ->
         Quota.session_pro session' = Quota.session_pro session ->
         Quota.points tracker = (if Quota.session_pro session then 75 else 5)%Z)
  end.
Proof.
  intros Hauth Huser Hne. apply truthy_true in Hne.
  unfold QuotaCalls.getUsageStatus. rewrite Hauth, Huser.
  unfold Quota.signed_in. rewrite Hne.
  destruct (QuotaCalls.getUsageTracker c) as [e|tracker] eqn:Htracker; [done|].
  split.
  - destruct (QuotaCalls.get c tracker userId) as [e|[[rem ms cons first]|]];
      eexists; (split; [reflexivity|]); by destruct (Quota.session_pro session).
  - intros session' Hauth' Hpro. unfold QuotaCalls.getUsageTracker in Htracker.
    rewrite Hauth' in Htracker. destruct (QuotaCalls.new_limiter c); simplify_eq/=.
    rewrite Hpro. by destruct (Quota.session_pro session).
Qed.

(** A signed-in free user whose tracker cannot be built: the throw of the
    tracker's [auth()] leaves [getUsageStatus]. *)
Lemma getUsageStatus_reports_the_tracker_limit_witness :
  QuotaCalls.getUsageStatus tracker_auth_fails = inl db_down.
Proof.
  exact (getUsageStatus_reports_the_tracker_limit tracker_auth_fails
           {| Quota.session_userId := Some "u2"; Quota.session_pro := false |} "u2"
           eq_refl eq_refl (proj1 (truthy_true "u2") eq_refl)).
Defined.

(** The same theorem on a pro user without a usage record. *)
Example getUsageStatus_pro_without_record :
  QuotaCalls.getUsageStatus (QuotaCalls.of_request pro_request)
    = inr (Quota.full_quota 75).
Proof. reflexivity. Qed.

(** The usage file of part_000 and src/lib/usage.ts give the same
    [getUsageStatus] for every request of a user who is not on the pro plan
    (and whenever [auth()] throws). *)
Theorem getUsageStatus_versions_agree (rq : Quota.Request) :
  (forall session, Quota.auth rq = inr session -> Quota.session_pro session = false) ->
  QuotaPart000.getUsageStatus rq = Quota.getUsageStatus rq.
Proof.
  intros Hfree. unfold QuotaPart000.getUsageStatus, Quota.getUsageStatus,
    QuotaPart000.getUsageTracker, Quota.getUsageTracker.
  destruct (Quota.auth rq) as [e|session]; [done|].
  by rewrite (Hfree session eq_refl).
Qed.

Lemma getUsageStatus_versions_agree_witness :
  QuotaPart000.getUsageStatus free_request = Quota.getUsageStatus free_request.
Proof.
  apply (getUsageStatus_versions_agree free_request).
  intros session H. injection H as <-. reflexivity.
Defined.

(** In part_000 the defaults ignore the plan: for a signed-in pro user
    without a usage record (or whose lookup throws) [getUsageStatus] reports
    5 remaining points although the tracker of the same file allows 75. *)
Theorem part000_pro_user_is_shown_the_free_quota (rq : Quota.Request)
    (session : Quota.Session) (userId : string) :
  Quota.auth rq = inr session ->
  Quota.session_userId session = Some userId ->
  userId <> "" ->
  Quota.session_pro session = true ->
  exists tracker,
    QuotaPart000.getUsageTracker rq = inr tracker /\
    Quota.points tracker = 75%Z /\
    (Quota.limiter_get rq tracker userId = inr None \/
     (exists e, Quota.limiter_get rq tracker userId = inl e) ->
     exists status,
       QuotaPart000.getUsageStatus rq = inr status /\
       Quota.remainingPoints status = 5%Z).
Proof.
  intros Hauth Huser Hne Hpro. apply truthy_true in Hne.
  unfold QuotaPart000.getUsageStatus, QuotaPart000.getUsageTracker.
  rewrite Hauth, Huser, Hpro. unfold Quota.signed_in. rewrite Hne.
  eexists. split; [reflexivity|]. split; [reflexivity|].
  intros [Hnone|[e He]]; [rewrite Hnone | rewrite He]; eexists; split; reflexivity.
Qed.

Lemma part000_pro_user_is_shown_the_free_quota_witness :
  exists tracker,
    QuotaPart000.getUsageTracker pro_request = inr tracker /\
    Quota.points tracker = 75%Z /\
    (Quota.limiter_get pro_request tracker "u1" = inr None \/
     (exists e, Quota.limiter_get pro_request tracker "u1" = inl e) ->
     exists status,
       QuotaPart000.getUsageStatus pro_request = inr status /\
       Quota.remainingPoints status = 5%Z).
Proof.
  exact (part000_pro_user_is_shown_the_free_quota pro_request
           {| Quota.session_userId := Some "u1"; Quota.session_pro := true |} "u1"
           eq_refl eq_refl (proj1 (truthy_true "u1") eq_refl) eq_refl).
Defined.

(** * The values a Run ends with *)

Lemma try_block_error_text (ev : Event) (env : Env) (w w1 : World) (msg : string) :
  try_block ev env w = (w1, inr (ErrorResult msg)) -> msg = "Failed to generate code".
Proof.
  unfold try_block, get_sandbox_id, set_sandboxId, get_previous_messages.
  unfold bind at 1 2 3 4 5, await, await_void, ret, throw.
  destruct (Sandbox_create env); [done|].
  destruct (sandbox_setTimeout env); [done|].
  destruct (message_findMany env); [done|].
  destruct (net_thrown _); [done|].
  destruct (isError _ _).
  - intros H. apply completion_failed_spec in H as [_ [H _]]. by simplify_eq.
  - intros H. by apply completion_succeeded_spec in H as [_ (? & ? & ? & ? & _)].
Qed.

(** The message of an error result is ["Failed to generate code"] when the
    completion check failed; otherwise the [try] block threw and the message
    is the [message] of the thrown [Error], or ["Unknown error"] when the
    thrown value is no [Error]: the caller does receive the text of the
    internal error. *)
Theorem error_result_text (ev : Event) (env : Env) (w w' : World) (msg : string) :
  codeAgentFunction ev env w = (w', inr (ErrorResult msg)) ->
  ((exists w1, try_block ev env (start_run w) = (w1, inr (ErrorResult msg))) /\
   msg = "Failed to generate code") \/
  (exists w1 e,
     try_block ev env (start_run w) = (w1, inl e) /\
     msg = if exn_instanceof_Error e then exn_message e else "Unknown error").
Proof.
  unfold codeAgentFunction, try_catch.
  destruct (try_block ev env (start_run w)) as [w1 [e|r]] eqn:Htry; intros Hrun.
  - right. apply catch_block_spec in Hrun as [_ [Hmsg _]]. simplify_eq. eauto.
  - left. simplify_eq. split; [eauto|]. by apply try_block_error_text in Htry.
Qed.

Lemma error_result_text_witness :
  ((exists w1, try_block ev1 (run_no_sandbox 1000) (start_run empty_world)
               = (w1, inr (ErrorResult "sandbox quota exceeded"))) /\
   "sandbox quota exceeded" = "Failed to generate code") \/
  (exists w1 e,
     try_block ev1 (run_no_sandbox 1000) (start_run empty_world) = (w1, inl e) /\
     "sandbox quota exceeded" = if exn_instanceof_Error e then exn_message e else "Unknown error").
Proof.
  exact (error_result_text ev1 (run_no_sandbox 1000) empty_world
           (codeAgentFunction ev1 (run_no_sandbox 1000) empty_world).1
           "sandbox quota exceeded" eq_refl).
Defined.

(** The workflow on a database that is down in the outer handler. *)
Lemma throws_only_from_the_handler_witness :
  message_findFirst run_no_sandbox_db_down = Some db_down \/
  create_error_message run_no_sandbox_db_down = inl db_down.
Proof.
  exact (throws_only_from_the_handler ev1 run_no_sandbox_db_down empty_world
           (codeAgentFunction ev1 run_no_sandbox_db_down empty_world).1 db_down eq_refl).
Defined.

(** The refund calls of the Run whose completion check fails. *)
Lemma refund_calls_of_a_failed_run_witness :
  refund_calls (codeAgentFunction ev1 (run_never_done 1000) empty_world).1
    = refund_calls empty_world ++ [ev_userId ev1] \/
  refund_calls (codeAgentFunction ev1 (run_never_done 1000) empty_world).1
    = refund_calls empty_world ++ [ev_userId ev1; ev_userId ev1].
Proof.
  exact (refund_calls_of_a_failed_run ev1 (run_never_done 1000) empty_world
           (codeAgentFunction ev1 (run_never_done 1000) empty_world).1
           (inr (ErrorResult "Failed to generate code")) eq_refl).
Defined.

(** A batch whose first write throws, on the initial state. *)
Lemma createOrUpdateFiles_fails_at_once_witness :
  let '(h1, st1, _) :=
    createOrUpdateFiles_handler
      {| w_getSandbox := None; w_write := fun _ => Some disk_full |}
      two_files initial_heap initial_state in
  st1 = initial_state /\ files_of h1 st1 = files_of initial_heap initial_state.
Proof.
  exact (createOrUpdateFiles_fails_at_once
           {| w_getSandbox := None; w_write := fun _ => Some disk_full |}
           two_files initial_heap initial_state
           (or_intror (conj (fun H : two_files = [] => eq_ind two_files
                               (fun l => match l with [] => False | _ => True end) I [] H)
                            (ex_intro _ disk_full eq_refl)))).
Defined.

(** * A batch that fails part way, end to end *)

(** The Run whose only batch throws on its second write ends with an empty
    file map, so the completion check fails although the model signalled
    completion. *)
Example partial_batch_fails_the_run :
  files_of (net_heap (network_run model_partial_then_done))
           (net_state (network_run model_partial_then_done)) = ∅ /\
  exists w1,
    codeAgentFunction ev1
      (sample_env (inr "sbx") model_partial_then_done (inr 1000%Z) (inr 1000%Z) 1000 None
         (inr 1000%Z)) empty_world
      = (w1, inr (ErrorResult "Failed to generate code")).
Proof. split; [vm_compute; reflexivity|]. eexists. vm_compute. reflexivity. Qed.
